(** * Triple-Pendulum-RL: reward engine, environment facade and rollout guard

    A shallow embedding of [reward.py], [tp_env.py], the actor of [model.py]
    and parts of [train.py] (replay buffer, the start of a rollout and its
    state check), followed by the properties established about them.

    Conventions of the embedding.
    - Python floats that take part in the reward and integration formulas are
      real numbers ([R]): [np.sin], [np.cos], [abs] and [np.pi] are [sin],
      [cos], [Rabs] and [PI].  Rounding is not modelled there.
    - The NaN check of the trainer is about IEEE special values, which [R]
      does not have; it is modelled on binary64 values ([spec_float] with
      precision 53 and maximal exponent 1024), and [np.sum] adds them in the
      order of NumPy's pairwise summation.
    - The activation [torch.tanh] of the actor is a parameter, of which only
      the range is assumed.
    - A method that mutates [self] is a function from the object to a result
      and the updated object; a raised exception is the [Raise] result, and
      the object keeps the mutations made before the exception.
    - NumPy arrays and Python tuples of scalars are lists; a dict with string
      keys is a [gmap string]. *)

From stdpp Require Import base list strings gmap.
From Stdlib Require Import Reals Lra Lia ZArith.
From Stdlib Require Import Floats.SpecFloat.

(** ** Python runtime: exceptions, methods, slices and unpacking *)

Module py.

Inductive exn : Type :=
  | AttributeError
  | ValueError
  | IndexError
  | LinAlgError.

Inductive result (A : Type) : Type :=
  | Ok (a : A)
  | Raise (e : exn).
Global Arguments Ok {A} a.
Global Arguments Raise {A} e.

Global Instance result_ret : MRet result := λ A a, Ok a.
Global Instance result_bind : MBind result := λ A B f m,
  match m with
  | Ok a => f a
  | Raise e => Raise e
  end.
Global Instance result_fmap : FMap result := λ A B f m,
  match m with
  | Ok a => Ok (f a)
  | Raise e => Raise e
  end.

(** A method of an object of type [S]: it returns or raises, and leaves the
    object in a new state either way. *)
Record method (S A : Type) : Type := Method { call : S → result A * S }.
Global Arguments Method {S A} call.
Global Arguments call {S A} m self.

Global Instance method_ret {S} : MRet (method S) := λ A a,
  Method (λ self, (Ok a, self)).
Global Instance method_bind {S} : MBind (method S) := λ A B f m,
  Method (λ self,
    match call m self with
    | (Ok a, self') => call (f a) self'
    | (Raise e, self') => (Raise e, self')
    end).

Definition lift {S A} (r : result A) : method S A :=
  Method (λ self, (r, self)).
Definition get_self {S} : method S S :=
  Method (λ self, (Ok self, self)).
Definition set_self {S} (f : S → S) : method S unit :=
  Method (λ self, (Ok tt, f self)).

(** What a call returned (or raised), and the object after it. *)
Definition returned {S A} (m : method S A) (self : S) : result A :=
  (call m self).1.
Definition after {S A} (m : method S A) (self : S) : S :=
  (call m self).2.

(** [seq[a:b]] for [0 <= a <= b]: never raises, and is shorter than [b - a]
    when the sequence ends before [b]. *)
Definition slice {A} (seq : list A) (a b : nat) : list A :=
  take (b - a) (drop a seq).

(** [u, v, w = seq]: raises ValueError unless [seq] has exactly three
    elements. *)
Definition unpack3 {A} (seq : list A) : result (A * A * A) :=
  match seq with
  | [u; v; w] => Ok (u, v, w)
  | _ => Raise ValueError
  end.

(** [seq[i]] for [0 <= i]. *)
Definition getitem {A} (seq : list A) (i : nat) : result A :=
  match seq !! i with
  | Some v => Ok v
  | None => Raise IndexError
  end.

(** [seq[i] = v] for [0 <= i]. *)
Definition setitem {A} (seq : list A) (i : nat) (v : A) : result (list A) :=
  if decide (i < length seq)%nat then Ok (<[i := v]> seq) else Raise IndexError.

(** [for item in items: body(item)], stopping at the first exception. *)
Fixpoint for_each {S A} (items : list A) (body : A → method S unit) : method S unit :=
  match items with
  | [] => mret tt
  | item :: items => _ ← body item; for_each items body
  end.

(** A method of the first of two objects, run on the pair. *)
Definition on_first {S T A} (m : method S A) : method (S * T) A :=
  Method (λ '(self, other), let '(r, self') := call m self in (r, (self', other))).

End py.
Import py.

(** ** reward.py *)

Module reward.
Local Open Scope R_scope.

Record RewardManager : Type := {
  cart_position_weight : R;
  termination_penalty : R;
  alignement_weight : R;
  upright_weight : R;
  stability_weight : R;
  old_state : option (list R);
  length_ : R  (* self.length *)
}.

Definition __init__ : RewardManager := {|
  cart_position_weight := 1;
  termination_penalty := 10.0;
  alignement_weight := 0.1;
  upright_weight := 1.0;
  stability_weight := 0.02;
  old_state := None;
  length_ := 0.5
|}.

Definition set_old_state (state : list R) (self : RewardManager) : RewardManager := {|
  cart_position_weight := cart_position_weight self;
  termination_penalty := termination_penalty self;
  alignement_weight := alignement_weight self;
  upright_weight := upright_weight self;
  stability_weight := stability_weight self;
  old_state := Some state;
  length_ := length_ self
|}.

(** Lines 33-38: the tips of the three links, as [(p_x, p_y)] pairs. *)
Definition pendulum_positions (self : RewardManager) (x th1 th2 th3 : R)
  : (R * R) * (R * R) * (R * R) :=
  let p1_x := x + length_ self * sin th1 in
  let p1_y := - length_ self * cos th1 in
  let p2_x := p1_x + length_ self * sin th2 in
  let p2_y := p1_y + length_ self * cos th2 in
  let p3_x := p2_x + length_ self * sin th3 in
  let p3_y := p2_y + length_ self * cos th3 in
  ((p1_x, p1_y), (p2_x, p2_y), (p3_x, p3_y)).

(** The returned tuple
    [(reward, upright_reward, x_penalty, non_alignement_penalty, stability_penalty)]. *)
Abbreviation reward_tuple := (R * R * R * R * R)%type.

Definition calculate_reward (state : list R) (terminated : bool) (current_step : Z)
  : method RewardManager reward_tuple :=
  '(x, x_dot, x_ddot) ← lift (unpack3 (slice state 0 3));
  '(th1, th1_dot, th1_ddot) ← lift (unpack3 (slice state 3 6));
  '(th2, th2_dot, th2_ddot) ← lift (unpack3 (slice state 6 9));
  '(th3, th3_dot, th3_ddot) ← lift (unpack3 (slice state 9 12));
  self ← get_self;
  let '((p1_x, p1_y), (p2_x, p2_y), (p3_x, p3_y)) :=
    pendulum_positions self x th1 th2 th3 in
  _ ← set_self (set_old_state state);
  let x_penalty := cart_position_weight self * Rabs x in
  let non_alignement_penalty :=
    alignement_weight self * (Rabs (th1 - th2) + Rabs (th2 - th3) + Rabs (th3 - th1)) / PI in
  let upright_reward := upright_weight self * (- p1_y - p2_y - p3_y) in
  let angular_velocity_penalty := (th1_dot ^ 2 + th2_dot ^ 2 + th3_dot ^ 2) / 3.0 in
  let angular_accel_penalty := (th1_ddot ^ 2 + th2_ddot ^ 2 + th3_ddot ^ 2) / 3.0 in
  let stability_penalty :=
    stability_weight self * (angular_velocity_penalty + angular_accel_penalty) in
  let reward := upright_reward - x_penalty - non_alignement_penalty - stability_penalty in
  let reward := if terminated then reward - termination_penalty self else reward in
  mret (reward, upright_reward, x_penalty, non_alignement_penalty, stability_penalty).

Definition get_reward_components (state : list R) (current_step : Z)
  : method RewardManager (gmap string R) :=
  '(reward, upright_reward, x_penalty, non_alignement_penalty, stability_penalty) ←
    calculate_reward state false current_step;
  mret (<["x_penalty" := x_penalty]>
       (<["non_alignement_penalty" := non_alignement_penalty]>
       (<["upright_reward" := upright_reward]>
       (<["stability_penalty" := stability_penalty]>
       (<["reward" := reward]> ∅))))).

(** The tuple of lines 43-66 as a function of the unpacked components. *)
Definition reward_of (self : RewardManager)
    (x th1 th1_dot th1_ddot th2 th2_dot th2_ddot th3 th3_dot th3_ddot : R)
    (terminated : bool) : reward_tuple :=
  let '(_, p1_y, (_, p2_y), (_, p3_y)) := pendulum_positions self x th1 th2 th3 in
  let x_penalty := cart_position_weight self * Rabs x in
  let non_alignement_penalty :=
    alignement_weight self * (Rabs (th1 - th2) + Rabs (th2 - th3) + Rabs (th3 - th1)) / PI in
  let upright_reward := upright_weight self * (- p1_y - p2_y - p3_y) in
  let stability_penalty :=
    stability_weight self * ((th1_dot ^ 2 + th2_dot ^ 2 + th3_dot ^ 2) / 3.0
                             + (th1_ddot ^ 2 + th2_ddot ^ 2 + th3_ddot ^ 2) / 3.0) in
  let reward := upright_reward - x_penalty - non_alignement_penalty - stability_penalty in
  (if terminated then reward - termination_penalty self else reward,
   upright_reward, x_penalty, non_alignement_penalty, stability_penalty).

(** Earlier uses of a manager: a sequence of calls of its two methods, each
    run to its return or its exception. *)
Inductive invocation : Type :=
  | CalculateReward (state : list R) (terminated : bool) (current_step : Z)
  | GetRewardComponents (state : list R) (current_step : Z).

Definition perform (self : RewardManager) (c : invocation) : RewardManager :=
  match c with
  | CalculateReward state terminated current_step =>
      after (calculate_reward state terminated current_step) self
  | GetRewardComponents state current_step =>
      after (get_reward_components state current_step) self
  end.

Definition perform_all (self : RewardManager) (history : list invocation) : RewardManager :=
  foldl perform self history.

(** The state argument of a call. *)
Definition invocation_state (c : invocation) : list R :=
  match c with
  | CalculateReward state _ _ => state
  | GetRewardComponents state _ => state
  end.

(** Two managers that differ at most in [old_state]. *)
Definition same_weights (a b : RewardManager) : Prop :=
  cart_position_weight a = cart_position_weight b
  ∧ termination_penalty a = termination_penalty b
  ∧ alignement_weight a = alignement_weight b
  ∧ upright_weight a = upright_weight b
  ∧ stability_weight a = stability_weight b
  ∧ length_ a = length_ b.

(** The five keys of the dict of [get_reward_components]. *)
Definition component_names : gset string :=
  {[ "x_penalty"; "non_alignement_penalty"; "upright_reward"; "stability_penalty"; "reward" ]}.

End reward.

(** ** tp_env.py *)

Module tp_env.
Local Open Scope R_scope.

(** NumPy on one-dimensional arrays. *)
Definition ones (k : nat) : list R := replicate k 1.
Definition zeros (k : nat) : list R := replicate k 0.
(** [c * a] for a scalar [c]. *)
Definition scale (c : R) (a : list R) : list R := (λ y, c * y) <$> a.
(** [a * c] for a scalar [c]. *)
Definition times (a : list R) (c : R) : list R := (λ y, y * c) <$> a.
(** [a + b]: equal shapes add elementwise, a one-element array is broadcast,
    any other pair of shapes raises ValueError. *)
Definition add (a b : list R) : result (list R) :=
  if decide (length a = length b) then Ok (zip_with Rplus a b)
  else match a, b with
       | [u], _ => Ok ((λ y, u + y) <$> b)
       | _, [v] => Ok ((λ y, y + v) <$> a)
       | _, _ => Raise ValueError
       end.
Definition hstack (parts : list (list R)) : list R := mjoin parts.

(** The instance fields that the numeric code reads or writes.  The symbolic
    model ([q], [u], [kane], [M_func], [F_func]) is represented by the solver
    that [rhs] takes below; [q] and [u] hold [num_nodes + 1] symbols each. *)
Record TriplePendulumEnv : Type := {
  n : nat;
  arm_length : R;
  bob_mass : R;
  friction_coefficient : R;
  dt : R;
  current_state : option (list R);
  current_time : R;
  applied_force : R;
  force_increment : R;
  target_force : R;
  force_smoothing : R;
  current_frame : nat;
  parameter_vals : list R
}.

Definition len_q (self : TriplePendulumEnv) : nat := (n self + 1)%nat.
Definition len_u (self : TriplePendulumEnv) : nat := (n self + 1)%nat.

Definition __init__ (num_nodes : nat) (arm_length bob_mass friction_coefficient : R)
  : TriplePendulumEnv := {|
  n := num_nodes;
  arm_length := arm_length;
  bob_mass := bob_mass;
  friction_coefficient := friction_coefficient;
  dt := 0.01;
  current_state := None;
  current_time := 0.0;
  applied_force := 0.0;
  force_increment := 0.3;
  target_force := 0.0;
  force_smoothing := 0.1;
  current_frame := 0;
  parameter_vals := [9.81; bob_mass] ++ mjoin (replicate num_nodes [arm_length; bob_mass])
|}.

(** [TriplePendulumEnv()] with the default arguments. *)
Definition default : TriplePendulumEnv := __init__ 3 (1 / 3) (0.01 / 3) 0.1.

Definition set_state_and_time (state : list R) (t : R) (self : TriplePendulumEnv)
  : TriplePendulumEnv := {|
  n := n self;
  arm_length := arm_length self;
  bob_mass := bob_mass self;
  friction_coefficient := friction_coefficient self;
  dt := dt self;
  current_state := Some state;
  current_time := t;
  applied_force := applied_force self;
  force_increment := force_increment self;
  target_force := target_force self;
  force_smoothing := force_smoothing self;
  current_frame := current_frame self;
  parameter_vals := parameter_vals self
|}.

Definition set_current_time (t : R) (self : TriplePendulumEnv) : TriplePendulumEnv := {|
  n := n self;
  arm_length := arm_length self;
  bob_mass := bob_mass self;
  friction_coefficient := friction_coefficient self;
  dt := dt self;
  current_state := current_state self;
  current_time := t;
  applied_force := applied_force self;
  force_increment := force_increment self;
  target_force := target_force self;
  force_smoothing := force_smoothing self;
  current_frame := current_frame self;
  parameter_vals := parameter_vals self
|}.

Definition set_frame_and_force (frame : nat) (force : R) (self : TriplePendulumEnv)
  : TriplePendulumEnv := {|
  n := n self;
  arm_length := arm_length self;
  bob_mass := bob_mass self;
  friction_coefficient := friction_coefficient self;
  dt := dt self;
  current_state := current_state self;
  current_time := current_time self;
  applied_force := force;
  force_increment := force_increment self;
  target_force := target_force self;
  force_smoothing := force_smoothing self;
  current_frame := frame;
  parameter_vals := parameter_vals self
|}.

(** Lines 111-119.  [state.copy()] stores a separate array, so the returned
    state and [current_state] do not alias. *)
Definition reset : method TriplePendulumEnv (list R) :=
  self ← get_self;
  let position_initial := 0.0 in
  let angles_init := - PI / 2 in
  let speeds_init := 1e-3 in
  let state := hstack [ [position_initial];
                        scale angles_init (ones (len_q self - 1));
                        scale speeds_init (ones (len_u self)) ] in
  _ ← set_self (set_state_and_time state 0.0);
  mret state.

Definition get_state : method TriplePendulumEnv (list R) :=
  self ← get_self;
  match current_state self with
  | Some state => mret state
  | None => reset
  end.

(** Attribute lookup on an instance: the fields assigned in the constructor,
    then the functions of the class body.  The class has no base other than
    [object]. *)
Definition instance_fields : list string :=
  [ "reward_manager"; "render_mode"; "n"; "arm_length"; "bob_mass";
    "friction_coefficient"; "dt"; "current_state"; "current_time";
    "applied_force"; "force_increment"; "target_force"; "force_smoothing";
    "current_frame"; "q"; "u"; "f"; "m"; "l"; "g"; "t"; "kane"; "fr";
    "frstar"; "parameter_vals"; "M_func"; "F_func" ].
Definition class_functions : list string :=
  [ "__init__"; "_setup_symbolic_model"; "_setup_numeric_evaluation"; "rhs";
    "reset"; "get_state"; "_render_init"; "animate_pendulum" ].

Inductive attribute : Type :=
  | Field (name : string)
  | BoundMethod (name : string).

Definition getattr (self : TriplePendulumEnv) (name : string) : result attribute :=
  if decide (name ∈ instance_fields) then Ok (Field name)
  else if decide (name ∈ class_functions) then Ok (BoundMethod name)
  else Raise AttributeError.

Section dynamics.
(** [np.array(solve(self.M_func( *a ), self.F_func( *a ))).T[0]] as a function
    of the argument vector [a]; [solve] raises LinAlgError on a singular
    mass matrix. *)
Variable solve_MF : list R → result (list R).

(** Lines 104-109. *)
Definition rhs (self : TriplePendulumEnv) (x : list R) (t : R) (args : list R)
    (controller : option (list R → R)) : result (list R) :=
  let u_input := match controller with Some c => c x | None => 0.0 end in
  let arguments := hstack [x; [u_input]; args] in
  solve_MF arguments.

(** Constants of [animate_pendulum] (lines 132-135). *)
Definition cart_width : R := 0.4.
Definition window_width : R := 4.0.
Definition xmin : R := - window_width / 2.
Definition xmax : R := window_width / 2.


(** [states.shape[1]] of the two-dimensional array [states]. *)
Definition shape1 (states : list (list R)) : nat :=
  match states with
  | row :: _ => length row
  | [] => 0
  end.
Definition num_joints (states : list (list R)) : nat := (shape1 states `div` 2)%nat.

(** [states[i] = row]. *)
Definition setrow (states : list (list R)) (i : nat) (row : list R)
  : result (list (list R)) :=
  if decide (i < length states)%nat then
    if decide (length row = shape1 states) then Ok (<[i := row]> states)
    else Raise ValueError
  else Raise IndexError.

(** Lines 198-204: the wall contact applied to the integrated state. *)
Definition clamp (num_joints : nat) (next_state : list R) : result (list R) :=
  cart_position ← getitem next_state 0;
  if Rlt_dec (cart_position - cart_width / 2) xmin then
    next_state ← setitem next_state 0 (xmin + cart_width / 2);
    setitem next_state num_joints 0
  else if Rgt_dec (cart_position + cart_width / 2) xmax then
    next_state ← setitem next_state 0 (xmax - cart_width / 2);
    setitem next_state num_joints 0
  else Ok next_state.

(** Lines 191-205: the state update of the closure [step(frame)] of
    [animate_pendulum(steps, states, ...)].  The object is the pair of the
    environment and the array [states], which the closure mutates.  The
    drawing calls that follow (lines 207-219) only read [states]. *)
Definition step (steps : Z) (frame : nat)
  : method (TriplePendulumEnv * list (list R)) unit :=
  '(self, states) ← get_self;
  let num_joints := num_joints states in
  if (Z.of_nat frame <? steps - 1)%Z then
    let force := applied_force self
                 + force_smoothing self * (target_force self - applied_force self) in
    _ ← set_self (λ '(self, states), (set_frame_and_force frame force self, states));
    current_state ← lift (getitem states frame);
    let time_step := dt self in
    dx ← lift (rhs self current_state (INR frame * dt self) (parameter_vals self)
                   (Some (λ _, force)));
    next_state ← lift (add current_state (times dx time_step));
    next_state ← lift (clamp num_joints next_state);
    states ← lift (setrow states (frame + 1) next_state);
    set_self (λ '(self, _), (self, states))
  else
    set_self (λ '(self, states),
                (set_frame_and_force frame (applied_force self) self, states)).

(** Lines 231-236: one iteration of the loop of the main block, on the
    triple of the environment, the local [state] and the list [states]. *)
Definition main_loop_body
  : method (TriplePendulumEnv * list R * list (list R)) unit :=
  '(env, state, states) ← get_self;
  let action := 0.0 in
  dx ← lift (rhs env state (current_time env) (parameter_vals env) (Some (λ _, action)));
  let env := set_current_time (current_time env + dt env) env in
  _ ← set_self (λ '(_, state, states), (env, state, states));
  state ← lift (add state (times dx (dt env)));
  set_self (λ '(env, _, states), (env, state, states ++ [state])).

(** The applied force after one smoothing update (line 194). *)
Definition smoothed (self : TriplePendulumEnv) : R :=
  applied_force self + force_smoothing self * (target_force self - applied_force self).

(** The row that an integrating frame computes (lines 195-204). *)
Definition next_row (self : TriplePendulumEnv) (states : list (list R)) (frame : nat)
  : result (list R) :=
  current_state ← getitem states frame;
  dx ← rhs self current_state (INR frame * dt self) (parameter_vals self)
          (Some (λ _, smoothed self));
  next_state ← add current_state (times dx (dt self));
  clamp (num_joints states) next_state.


(** A row and the row that one iteration of the main loop appends after it. *)
Definition euler_step (env : TriplePendulumEnv) (row next : list R) : Prop :=
  ∃ (t : R) (dx : list R),
    rhs env row t (parameter_vals env) (Some (λ _, 0.0)) = Ok dx
    ∧ add row (times dx (dt env)) = Ok next.

(** Lines 231-236: the loop of the main block, [for _ in range(max_steps)]. *)
Definition main_loop (max_steps : nat)
  : method (TriplePendulumEnv * list R * list (list R)) unit :=
  for_each (replicate max_steps tt) (λ _, main_loop_body).
End dynamics.

Section animation.
Local Open Scope R_scope.

Definition set_target_force (force : R) (self : TriplePendulumEnv) : TriplePendulumEnv := {|
  n := n self;
  arm_length := arm_length self;
  bob_mass := bob_mass self;
  friction_coefficient := friction_coefficient self;
  dt := dt self;
  current_state := current_state self;
  current_time := current_time self;
  applied_force := applied_force self;
  force_increment := force_increment self;
  target_force := force;
  force_smoothing := force_smoothing self;
  current_frame := current_frame self;
  parameter_vals := parameter_vals self
|}.

(** Lines 174-175: [for i in range(current_frame+1, len(states)):
    states[i] = states[current_frame]]. *)
Definition copy_row_down (frame : nat) : method (TriplePendulumEnv * list (list R)) unit :=
  '(_, states) ← get_self;
  for_each (seq (frame + 1) (length states - (frame + 1)))
    (λ i, '(_, states) ← get_self;
          row ← lift (getitem states frame);
          states ← lift (setrow states i row);
          set_self (λ '(self, _), (self, states))).

(** Lines 166-175: the closure [handle_key_press] of [animate_pendulum], on
    the key of the event. *)
Definition handle_key_press (key : string)
  : method (TriplePendulumEnv * list (list R)) unit :=
  '(self, _) ← get_self;
  if decide (key = "left") then
    set_self (λ '(self, states), (set_target_force (- force_increment self) self, states))
  else if decide (key = "right") then
    set_self (λ '(self, states), (set_target_force (force_increment self) self, states))
  else if decide (key = " ") then
    _ ← set_self (λ '(self, states), (set_target_force 0.0 self, states));
    state ← on_first reset;
    '(self, states) ← get_self;
    states ← lift (setrow states (current_frame self) state);
    _ ← set_self (λ '(self, _), (self, states));
    copy_row_down (current_frame self)
  else mret tt.

(** Lines 177-179. *)
Definition handle_key_release (key : string)
  : method (TriplePendulumEnv * list (list R)) unit :=
  if decide (key ∈ ["left"; "right"]) then
    set_self (λ '(self, states), (set_target_force 0.0 self, states))
  else mret tt.




End animation.

Section symbolic.
Local Open Scope R_scope.

(** The symbols of the model: [g], [t], the force [f], and the indexed
    coordinates [q], speeds [u], masses [m] and lengths [l] (lines 34-40). *)
Inductive symbol : Type :=
  | sym_g
  | sym_t
  | sym_f
  | sym_q (i : nat)
  | sym_u (i : nat)
  | sym_m (i : nat)
  | sym_l (i : nat).

Definition q (num_nodes : nat) : list symbol := sym_q <$> seq 0 (num_nodes + 1).
Definition u (num_nodes : nat) : list symbol := sym_u <$> seq 0 (num_nodes + 1).
Definition m (num_nodes : nat) : list symbol := sym_m <$> seq 0 (num_nodes + 1).
Definition l (num_nodes : nat) : list symbol := sym_l <$> seq 0 num_nodes.

(** Lines 88-92: the list [parameters] after the loop, built beside
    [parameter_vals]. *)
Definition parameters (num_nodes : nat) : list symbol :=
  foldl (λ parameters i, parameters ++ [sym_l i; sym_m (i + 1)])
        [sym_g; sym_m 0] (seq 0 num_nodes).

(** Lines 94-95: [dynamic = self.q + self.u] with [self.f] appended. *)
Definition dynamic (num_nodes : nat) : list symbol :=
  q num_nodes ++ u num_nodes ++ [sym_f].

(** Lines 101-102: the formal arguments of [M_func] and [F_func], in order
    (one dummy per dynamic symbol, then the parameters). *)
Definition lambdify_arguments (num_nodes : nat) : list symbol :=
  dynamic num_nodes ++ parameters num_nodes.

(** The value a formal argument is meant to receive: coordinates and speeds
    from the two halves of the state, the force, and the physical constants
    of the environment. *)
Definition bound_to (self : TriplePendulumEnv) (coordinates speeds : list R) (force : R)
    (s : symbol) (v : R) : Prop :=
  match s with
  | sym_q i => coordinates !! i = Some v
  | sym_u i => speeds !! i = Some v
  | sym_f => v = force
  | sym_g => v = 9.81
  | sym_m _ => v = bob_mass self
  | sym_l _ => v = arm_length self
  | sym_t => False
  end.
End symbolic.

End tp_env.

(** ** train.py *)

Module train.

(** Line 118, [next_state, terminated = self.env.step(action)]: the attribute
    [step] is looked up on the environment and the result is called with the
    action.  [invoke] is the calling convention of whatever attribute the
    lookup finds. *)
Definition env_step (invoke : tp_env.attribute → R → result (list R * bool))
    (env : tp_env.TriplePendulumEnv) (action : R) : result (list R * bool) :=
  f ← tp_env.getattr env "step";
  invoke f action.

(** binary64, the element type of the state array. *)
Definition float64 : Type := spec_float.
Definition float64_add : float64 → float64 → float64 := SFadd 53 1024.

(** [np.sum] adds the elements of a contiguous binary64 array with NumPy's
    pairwise summation, whose order is not left to right from eight elements
    on.  The eight partial sums [r[0]], ..., [r[7]] of its unrolled loop: *)
Record lanes : Type := Lanes {
  r0 : float64; r1 : float64; r2 : float64; r3 : float64;
  r4 : float64; r5 : float64; r6 : float64; r7 : float64
}.

(** [r[j] += a[i + j]] for [j] from 0 to 7. *)
Definition add8 (r block : lanes) : lanes :=
  Lanes (float64_add (r0 r) (r0 block)) (float64_add (r1 r) (r1 block))
        (float64_add (r2 r) (r2 block)) (float64_add (r3 r) (r3 block))
        (float64_add (r4 r) (r4 block)) (float64_add (r5 r) (r5 block))
        (float64_add (r6 r) (r6 block)) (float64_add (r7 r) (r7 block)).

(** [((r[0] + r[1]) + (r[2] + r[3])) + ((r[4] + r[5]) + (r[6] + r[7]))]. *)
Definition reduce8 (r : lanes) : float64 :=
  float64_add
    (float64_add (float64_add (r0 r) (r1 r)) (float64_add (r2 r) (r3 r)))
    (float64_add (float64_add (r4 r) (r5 r)) (float64_add (r6 r) (r7 r))).

(** The loop over the further blocks of eight elements, then the reduction
    of the eight partial sums and the loop over the fewer than eight elements
    that remain. *)
Fixpoint unrolled (r : lanes) (a : list float64) : float64 :=
  match a with
  | a0 :: a1 :: a2 :: a3 :: a4 :: a5 :: a6 :: a7 :: a =>
      unrolled (add8 r (Lanes a0 a1 a2 a3 a4 a5 a6 a7)) a
  | rest => foldl float64_add (reduce8 r) rest
  end.

(** The sum of a block of at most 128 elements: fewer than eight elements are
    added from left to right, starting from [-0.0]; otherwise the first eight
    elements initialise the partial sums. *)
Definition block_sum (a : list float64) : float64 :=
  match a with
  | a0 :: a1 :: a2 :: a3 :: a4 :: a5 :: a6 :: a7 :: a =>
      unrolled (Lanes a0 a1 a2 a3 a4 a5 a6 a7) a
  | _ => foldl float64_add (S754_zero true) a
  end.

(** The pairwise summation: a block of more than 128 elements is split at
    half its length rounded down to a multiple of eight, and the sums of the
    two parts are added.  [depth] bounds the number of nested splits; the
    length of the array is always enough (see [pairwise_sum_depth]). *)
Fixpoint pairwise_sum (depth : nat) (a : list float64) : float64 :=
  match depth with
  | S depth =>
      if decide (length a ≤ 128)%nat then block_sum a
      else
        let n2 := (length a `div` 2)%nat in
        let n2 := (n2 - n2 `mod` 8)%nat in
        float64_add (pairwise_sum depth (take n2 a)) (pairwise_sum depth (drop n2 a))
  | 0%nat => block_sum a
  end.

(** [np.sum] of a one-dimensional binary64 array: the reduction starts from
    the identity [0.0] of the addition, to which the pairwise sum of the
    elements is added. *)
Definition np_sum (a : list float64) : float64 :=
  float64_add (S754_zero false) (pairwise_sum (length a) a).

Definition np_isnan (v : float64) : bool :=
  match v with
  | S754_nan => true
  | _ => false
  end.

Definition is_inf (v : float64) : bool :=
  match v with
  | S754_infinity _ => true
  | _ => false
  end.

Definition is_finite (v : float64) : bool :=
  match v with
  | S754_zero _ | S754_finite _ _ _ => true
  | _ => false
  end.

Global Instance float64_eq_dec : EqDecision float64.
Proof. unfold float64. solve_decision. Defined.

(** A sum that has reached the infinity of sign [s], or NaN. *)
Definition stuck_at (s : bool) (acc : float64) : Prop :=
  acc = S754_infinity s ∨ acc = S754_nan.

(** A value that is a zero or has the sign [s] ([true] for negative); NaN has
    neither. *)
Definition same_sign (s : bool) (v : float64) : Prop :=
  match v with
  | S754_zero _ => True
  | S754_infinity s' | S754_finite s' _ _ => s' = s
  | S754_nan => False
  end.

(** Every one, and at least one, of the eight partial sums. *)
Definition lanes_all (P : float64 → Prop) (r : lanes) : Prop :=
  P (r0 r) ∧ P (r1 r) ∧ P (r2 r) ∧ P (r3 r) ∧ P (r4 r) ∧ P (r5 r) ∧ P (r6 r) ∧ P (r7 r).
Definition lanes_some (P : float64 → Prop) (r : lanes) : Prop :=
  P (r0 r) ∨ P (r1 r) ∨ P (r2 r) ∨ P (r3 r) ∨ P (r4 r) ∨ P (r5 r) ∨ P (r6 r) ∨ P (r7 r).

(** Lines 120-123 of [collect_trajectory]. *)
Definition check_state (next_state : list float64) : result unit :=
  if np_isnan (np_sum next_state) then Raise ValueError else Ok tt.

Section trainer.
Local Open Scope R_scope.

(** [ReplayBuffer]: a [deque(maxlen=capacity)].  Appending to a full deque
    discards from the left. *)
Record ReplayBuffer (A : Type) : Type := {
  buffer : list A;
  maxlen : nat
}.
Global Arguments buffer {A} _.
Global Arguments maxlen {A} _.

Definition ReplayBuffer_init {A} (capacity : nat) : ReplayBuffer A :=
  {| buffer := []; maxlen := capacity |}.

(** Lines 19-20. *)
Definition push {A} (self : ReplayBuffer A) (transition : A) : ReplayBuffer A :=
  let appended := buffer self ++ [transition] in
  {| buffer := drop (length appended - maxlen self) appended; maxlen := maxlen self |}.

(** Lines 27-28. *)
Definition len {A} (self : ReplayBuffer A) : nat := length (buffer self).

(** The fields of the trainer that its numeric code reads or writes; the
    networks, their optimizers, the metrics and the replay memory are left
    out. *)
Record TriplePendulumTrainer : Type := {
  env : tp_env.TriplePendulumEnv;
  reward_manager : reward.RewardManager;
  total_steps : nat;
  max_steps : nat;
  epsilon : R;
  epsilon_decay : R;
  min_epsilon : R;
  reward_scale : R;
  reward_running_mean : R;
  reward_running_std : R;
  reward_alpha : R
}.

(** Lines 31-67, for the fields above; the constructor resets the
    environment once (line 39). *)
Definition __init__ (num_nodes : nat) : TriplePendulumTrainer := {|
  env := after tp_env.reset (tp_env.__init__ num_nodes (1 / 3) (0.01 / 3) 0.1);
  reward_manager := reward.__init__;
  total_steps := 0;
  max_steps := 500;
  epsilon := 1.0;
  epsilon_decay := 0.99;
  min_epsilon := 0.001;
  reward_scale := 1.0;
  reward_running_mean := 0;
  reward_running_std := 1;
  reward_alpha := 0.001
|}.

Definition set_env (e : tp_env.TriplePendulumEnv) (self : TriplePendulumTrainer)
  : TriplePendulumTrainer := {|
  env := e;
  reward_manager := reward_manager self;
  total_steps := total_steps self;
  max_steps := max_steps self;
  epsilon := epsilon self;
  epsilon_decay := epsilon_decay self;
  min_epsilon := min_epsilon self;
  reward_scale := reward_scale self;
  reward_running_mean := reward_running_mean self;
  reward_running_std := reward_running_std self;
  reward_alpha := reward_alpha self
|}.

(** A method of the environment, called through [self.env]. *)
Definition on_env {A} (m : method tp_env.TriplePendulumEnv A)
  : method TriplePendulumTrainer A :=
  Method (λ self, let '(r, e) := call m (env self) in (r, set_env e self)).

(** Attribute lookup on a [RewardManager]: the fields assigned in its
    constructor, then the functions of the class body. *)
Definition reward_manager_fields : list string :=
  [ "cart_position_weight"; "termination_penalty"; "alignement_weight";
    "upright_weight"; "stability_weight"; "old_state"; "length" ].
Definition reward_manager_functions : list string :=
  [ "__init__"; "calculate_reward"; "get_reward_components" ].
Definition reward_manager_getattr (name : string) : result tp_env.attribute :=
  if decide (name ∈ reward_manager_fields) then Ok (tp_env.Field name)
  else if decide (name ∈ reward_manager_functions) then Ok (tp_env.BoundMethod name)
  else Raise AttributeError.

(** Lines 94-103, the start of [collect_trajectory]: the environment is
    reset and read, then [self.reward_manager.reset()] is called.  [invoke]
    is the call of the attribute found, [rest] the remainder of the function
    from line 105 on, given the state. *)
Definition collect_trajectory {A} (invoke : tp_env.attribute → result unit)
    (rest : list R → method TriplePendulumTrainer A)
  : method TriplePendulumTrainer A :=
  state ← on_env tp_env.reset;
  state ← on_env tp_env.get_state;
  reset ← lift (reward_manager_getattr "reset");
  _ ← lift (invoke reset);
  rest state.

(** [a, b, c, d, e, f, g = seq]. *)
Definition unpack7 {A} (seq : list A) : result (A * A * A * A * A * A * A) :=
  match seq with
  | [a; b; c; d; e; f; g] => Ok (a, b, c, d, e, f, g)
  | _ => Raise ValueError
  end.

(** Line 133: the result of [calculate_reward] unpacked into seven names,
    of which [custom_reward] and [force_terminated] are used. *)
Definition custom_reward_line (next_state : list R) (terminated : bool) (num_steps : Z)
  : method reward.RewardManager (R * R) :=
  '(reward, upright_reward, x_penalty, non_alignement_penalty, stability_penalty) ←
    reward.calculate_reward next_state terminated num_steps;
  '(custom_reward, _, _, _, _, _, force_terminated) ←
    lift (unpack7 [reward; upright_reward; x_penalty;
                   non_alignement_penalty; stability_penalty]);
  mret (custom_reward, force_terminated).
End trainer.

End train.

(** ** model.py *)

Module model.
Local Open Scope R_scope.

(** [nn.Linear(in_features, out_features)]: [weight] has one row of
    [in_features] entries per output feature, [bias] one entry per output
    feature. *)
Record Linear : Type := {
  weight : list (list R);
  bias : list R
}.

Definition shaped (in_features out_features : nat) (layer : Linear) : Prop :=
  length (weight layer) = out_features
  ∧ Forall (λ row, length row = in_features) (weight layer)
  ∧ length (bias layer) = out_features.

Definition dot (a b : list R) : R := foldr Rplus 0 (zip_with Rmult a b).

(** [layer(x)] on one sample, [x·Wᵀ + b]; PyTorch raises on an input whose
    size is not [in_features], which is [None] here. *)
Definition Linear_forward (layer : Linear) (x : list R) : option (list R) :=
  if decide (Forall (λ row, length row = length x) (weight layer)) then
    Some (zip_with (λ row b, dot row x + b) (weight layer) (bias layer))
  else None.

(** [F.relu], elementwise. *)
Definition relu (x : list R) : list R := Rmax 0 <$> x.

Record TriplePendulumActor : Type := {
  fc1 : Linear;
  fc2 : Linear;
  fc3 : Linear
}.

(** What the constructor [TriplePendulumActor(state_dim, action_dim,
    hidden_dim)] fixes: the shapes of the three layers. *)
Definition constructed (state_dim action_dim hidden_dim : nat)
    (self : TriplePendulumActor) : Prop :=
  shaped state_dim hidden_dim (fc1 self)
  ∧ shaped hidden_dim hidden_dim (fc2 self)
  ∧ shaped hidden_dim action_dim (fc3 self).

Section activation.
(** [torch.tanh] on one value, as the tensor library computes it.  Its values
    lie between −1 and 1 with both bounds reached: in floating point it
    returns exactly ±1 on arguments of moderate size. *)
Variable torch_tanh : R → R.

(** [torch.tanh], elementwise. *)
Definition tanh_ (x : list R) : list R := torch_tanh <$> x.

(** Lines 12-15 of [model.py]. *)
Definition forward (self : TriplePendulumActor) (x : list R) : option (list R) :=
  x ← Linear_forward (fc1 self) x;
  x ← Linear_forward (fc2 self) (relu x);
  x ← Linear_forward (fc3 self) (relu x);
  Some (tanh_ x).
End activation.

End model.

(** ** The forward kinematics of the specification, and sample inputs *)

Module samples.
Local Open Scope R_scope.

(** The tip of a link in the words of the specification: the tip of the
    previous link (the cart for the first link) plus [L·(sin θ, −cos θ)]. *)
Definition spec_tip (L : R) (previous : R * R) (th : R) : R * R :=
  (previous.1 + L * sin th, previous.2 + L * - cos th).

(** The uprightness reward in the words of the specification: the weight
    times the sum of the heights [−y] of the three tips. *)
Definition spec_uprightness (w_up L x th1 th2 th3 : R) : R :=
  let p1 := spec_tip L (x, 0) th1 in
  let p2 := spec_tip L p1 th2 in
  let p3 := spec_tip L p2 th3 in
  w_up * (- p1.2 + - p2.2 + - p3.2).

(** Twelve zeros: cart at the origin, the three angles at 0, at rest. *)
Definition zero_state : list R := tp_env.zeros 12.

(** A twelve-component state at rest whose three angles are all [th]. *)
Definition aligned_state (th : R) : list R :=
  [0; 0; 0; th; 0; 0; th; 0; 0; th; 0; 0].

(** The first link at angle 0 and the other two at π, at rest. *)
Definition folded_state : list R :=
  [0; 0; 0; 0; 0; 0; PI; 0; 0; PI; 0; 0].

(** The environment the trainer builds: [num_nodes] is 2 in [config.py], the
    other arguments are the defaults. *)
Definition trainer_env : tp_env.TriplePendulumEnv :=
  tp_env.__init__ 2 (1 / 3) (0.01 / 3) 0.1.

(** A three-link state with the cart at 1.79 moving right at speed 5, a
    solver that answers with the derivative [5, 0, ..., 0], and a two-row
    array of states. *)
Definition near_wall_state : list R := [1.79; 0; 0; 0; 5; 0; 0; 0].
Definition near_wall_solver : list R → result (list R) :=
  λ _, Ok [5; 0; 0; 0; 0; 0; 0; 0].
Definition near_wall_states : list (list R) := [near_wall_state; near_wall_state].

(** An integrated three-link state whose cart position 1.84 is beyond the
    right travel limit. *)
Definition beyond_wall_state : list R := [1.84; 0; 0; 0; 5; 0; 0; 0].

(** A three-link state with the cart at the origin moving right at speed 5,
    and a two-row array of states. *)
Definition centre_state : list R := [0; 0; 0; 0; 5; 0; 0; 0].
Definition centre_states : list (list R) := [centre_state; centre_state].

(** A six-component binary64 state with infinities of both signs. *)
Definition mixed_state : list train.float64 :=
  [S754_infinity false; S754_infinity true; S754_zero false;
   S754_zero false; S754_zero false; S754_zero false].

(** An actor with two inputs, one hidden unit per hidden layer and one
    output. *)
Definition small_actor : model.TriplePendulumActor := {|
  model.fc1 := {| model.weight := [[1; -1]]; model.bias := [0] |};
  model.fc2 := {| model.weight := [[2]]; model.bias := [1] |};
  model.fc3 := {| model.weight := [[3]]; model.bias := [0] |}
|}.

(** A six-component binary64 state (the size of the trainer's two-link
    state) whose cart position is +Inf and whose other components are 0. *)
Definition infinite_state : list train.float64 :=
  [S754_infinity false; S754_zero false; S754_zero false;
   S754_zero false; S754_zero false; S754_zero false].

(** An eight-component binary64 state of finite values: twice the largest
    finite number, twice its opposite, and four zeros. *)
Definition overflow_state : list train.float64 :=
  [ S754_finite false (2 ^ 53 - 1) 971; S754_finite false (2 ^ 53 - 1) 971;
    S754_finite true (2 ^ 53 - 1) 971; S754_finite true (2 ^ 53 - 1) 971;
    S754_zero false; S754_zero false; S754_zero false; S754_zero false ].

End samples.

(** * Properties *)

(** ** Methods *)

Lemma call_bind {S A B} (m : method S A) (f : A → method S B) (self : S) :
  call (m ≫= f) self =
    match call m self with
    | (Ok a, self') => call (f a) self'
    | (Raise e, self') => (Raise e, self')
    end.
Proof. reflexivity. Qed.

(** ** The reward engine *)

Section reward_properties.
Import reward samples.
Local Open Scope R_scope.

(** A sequence with at least twelve elements starts with twelve elements. *)
Lemma twelve_components {A} (state : list A) :
  (12 ≤ length state)%nat →
  ∃ a0 a1 a2 a3 a4 a5 a6 a7 a8 a9 a10 a11 rest,
    state = [a0; a1; a2; a3; a4; a5; a6; a7; a8; a9; a10; a11] ++ rest.
Proof.
  intros Hlen.
  do 12 (destruct state as [|? state]; [simpl in Hlen; lia|]).
  repeat eexists.
Qed.

Lemma calculate_reward_call self x x_dot x_ddot th1 th1_dot th1_ddot
    th2 th2_dot th2_ddot th3 th3_dot th3_ddot rest terminated current_step :
  let state := [x; x_dot; x_ddot; th1; th1_dot; th1_ddot;
                th2; th2_dot; th2_ddot; th3; th3_dot; th3_ddot] ++ rest in
  call (calculate_reward state terminated current_step) self =
    (Ok (reward_of self x th1 th1_dot th1_ddot th2 th2_dot th2_ddot
                   th3 th3_dot th3_ddot terminated),
     set_old_state state self).
Proof. reflexivity. Qed.

Lemma calculate_reward_short self state terminated current_step :
  (length state < 12)%nat →
  call (calculate_reward state terminated current_step) self = (Raise ValueError, self).
Proof.
  intros Hlen.
  do 12 (destruct state as [|? state]; [reflexivity|]).
  simpl in Hlen. lia.
Qed.

Lemma get_reward_components_call self state current_step :
  call (get_reward_components state current_step) self =
    match call (calculate_reward state false current_step) self with
    | (Ok (reward, upright_reward, x_penalty, non_alignement_penalty, stability_penalty), self') =>
        (Ok (<["x_penalty" := x_penalty]>
            (<["non_alignement_penalty" := non_alignement_penalty]>
            (<["upright_reward" := upright_reward]>
            (<["stability_penalty" := stability_penalty]>
            (<["reward" := reward]> ∅))))), self')
    | (Raise e, self') => (Raise e, self')
    end.
Proof.
  unfold get_reward_components. rewrite call_bind.
  destruct (call (calculate_reward state false current_step) self) as [[t|e] self'];
    [destruct t as [[[[? ?] ?] ?] ?]|]; reflexivity.
Qed.

(** Whichever way a call ends, the manager it leaves has the weights it
    started with: only [old_state] is ever written. *)
Lemma calculate_reward_same_weights self state terminated current_step :
  same_weights self (after (calculate_reward state terminated current_step) self).
Proof.
  unfold after.
  destruct (decide (length state < 12)%nat) as [Hlen|Hlen].
  - rewrite calculate_reward_short by done. by repeat split.
  - destruct (twelve_components state) as (?&?&?&?&?&?&?&?&?&?&?&?&?&->); [lia|].
    rewrite calculate_reward_call. by repeat split.
Qed.

Lemma get_reward_components_same_weights self state current_step :
  same_weights self (after (get_reward_components state current_step) self).
Proof.
  unfold after. rewrite get_reward_components_call.
  pose proof (calculate_reward_same_weights self state false current_step) as Hw.
  unfold after in Hw.
  destruct (call (calculate_reward state false current_step) self) as [[t|e] self'];
    [destruct t as [[[[? ?] ?] ?] ?]|]; exact Hw.
Qed.

Lemma same_weights_trans a b c : same_weights a b → same_weights b c → same_weights a c.
Proof. unfold same_weights. intuition congruence. Qed.

Lemma perform_all_same_weights history self :
  same_weights self (perform_all self history).
Proof.
  revert self. induction history as [|c history IH]; intros self.
  - by repeat split.
  - simpl. eapply same_weights_trans; [|apply IH].
    destruct c; [apply calculate_reward_same_weights|apply get_reward_components_same_weights].
Qed.

(** The value returned depends on the manager through its weights only. *)
Lemma calculate_reward_weights_only a b state terminated step_a step_b :
  same_weights a b →
  returned (calculate_reward state terminated step_a) a
  = returned (calculate_reward state terminated step_b) b.
Proof.
  intros (Hc & Ht & Ha & Hu & Hs & Hl). unfold returned.
  destruct (decide (length state < 12)%nat) as [Hlen|Hlen].
  - by rewrite !calculate_reward_short.
  - destruct (twelve_components state) as (?&?&?&?&?&?&?&?&?&?&?&?&?&->); [lia|].
    rewrite !calculate_reward_call. simpl. f_equal.
    unfold reward_of, pendulum_positions.
    by rewrite Hc, Ht, Ha, Hu, Hs, Hl.
Qed.

(** C5, as the code has it.  On a state of at least twelve components both
    calls return: with the same manager, state and step count, the call with
    [terminated = True] returns the reward of the call with
    [terminated = False] minus [termination_penalty], and the same four other
    components. *)
Theorem terminated_reward_is_penalty_less self state current_step :
  (12 ≤ length state)%nat →
  ∃ reward upright_reward x_penalty non_alignement_penalty stability_penalty : R,
    returned (calculate_reward state false current_step) self
    = Ok (reward, upright_reward, x_penalty, non_alignement_penalty, stability_penalty)
    ∧ returned (calculate_reward state true current_step) self
      = Ok (reward - termination_penalty self,
            upright_reward, x_penalty, non_alignement_penalty, stability_penalty).
Proof.
  intros Hlen.
  destruct (twelve_components state Hlen) as (x&?&?&th1&d1&a1&th2&d2&a2&th3&d3&a3&rest&->).
  unfold returned. rewrite !calculate_reward_call.
  eexists _, _, _, _, _. split; reflexivity.
Qed.

Lemma terminated_reward_zero_state :
  ∃ reward upright_reward x_penalty non_alignement_penalty stability_penalty : R,
    returned (calculate_reward zero_state false 0) __init__
    = Ok (reward, upright_reward, x_penalty, non_alignement_penalty, stability_penalty)
    ∧ returned (calculate_reward zero_state true 0) __init__
      = Ok (reward - 10.0,
            upright_reward, x_penalty, non_alignement_penalty, stability_penalty).
Proof.
  apply (terminated_reward_is_penalty_less __init__ zero_state 0). simpl. lia.
Defined.

(** C5 as stated fails: on the six-component state that [reset] returns for
    the trainer's two-link environment neither call returns a reward, both
    raise ValueError. *)
Lemma terminated_reward_raises_on_reset_state :
  ∃ state : list R,
    returned tp_env.reset trainer_env = Ok state
    ∧ length state = 6%nat
    ∧ returned (calculate_reward state false 0) __init__ = Raise ValueError
    ∧ returned (calculate_reward state true 0) __init__ = Raise ValueError.
Proof.
  eexists. split; [reflexivity|]. split; [reflexivity|].
  unfold returned. rewrite !calculate_reward_short by (simpl; lia). done.
Qed.

(** C8.  The value returned by [calculate_reward] is a function of the state
    and of the terminated flag: it is the same whatever previous state is
    stored, whatever calls were made on the manager before, and whatever
    step count is passed. *)
Theorem calculate_reward_ignores_history
    self (previous : list R) (history : list invocation)
    state terminated (step_a step_b : Z) :
  returned (calculate_reward state terminated step_a) (set_old_state previous self)
  = returned (calculate_reward state terminated step_b) self
  ∧ returned (calculate_reward state terminated step_a) (perform_all self history)
    = returned (calculate_reward state terminated step_b) self.
Proof.
  split; symmetry; apply calculate_reward_weights_only.
  - by repeat split.
  - apply perform_all_same_weights.
Qed.

(** C9, as the code has it.  On a state of at least twelve components
    [get_reward_components] returns a dict with exactly the five keys
    [x_penalty], [non_alignement_penalty], [upright_reward],
    [stability_penalty] and [reward]; the values are those of
    [calculate_reward] on the non-terminal branch, and [reward] is the
    uprightness reward minus the three penalties. *)
Theorem get_reward_components_five_fields self state current_step :
  (12 ≤ length state)%nat →
  ∃ (components : gmap string R)
    (reward upright_reward x_penalty non_alignement_penalty stability_penalty : R),
    returned (get_reward_components state current_step) self = Ok components
    ∧ dom components = component_names
    ∧ size components = 5%nat
    ∧ components !! "x_penalty" = Some x_penalty
    ∧ components !! "non_alignement_penalty" = Some non_alignement_penalty
    ∧ components !! "upright_reward" = Some upright_reward
    ∧ components !! "stability_penalty" = Some stability_penalty
    ∧ components !! "reward" = Some reward
    ∧ reward = upright_reward - x_penalty - non_alignement_penalty - stability_penalty
    ∧ returned (calculate_reward state false current_step) self
      = Ok (reward, upright_reward, x_penalty, non_alignement_penalty, stability_penalty).
Proof.
  intros Hlen.
  destruct (twelve_components state Hlen) as (x&?&?&th1&d1&a1&th2&d2&a2&th3&d3&a3&rest&->).
  unfold returned.
  rewrite get_reward_components_call, calculate_reward_call.
  eexists _, _, _, _, _, _. simpl.
  split; [reflexivity|].
  split; [unfold component_names; rewrite !dom_insert_L, dom_empty_L; set_solver|].
  split; [rewrite <- size_dom; rewrite !dom_insert_L, dom_empty_L; by vm_compute|].
  repeat (split; [by simplify_map_eq|]).
  split; reflexivity.
Qed.

(** C9 as stated fails: the state that [reset] returns for the trainer's
    two-link environment has six components, and [get_reward_components]
    raises ValueError on it instead of returning a dict. *)
Lemma get_reward_components_raises_on_reset_state :
  ∃ state : list R,
    returned tp_env.reset trainer_env = Ok state
    ∧ length state = 6%nat
    ∧ returned (get_reward_components state 0) __init__ = Raise ValueError.
Proof.
  eexists. split; [reflexivity|]. split; [reflexivity|].
  unfold returned. rewrite get_reward_components_call.
  rewrite calculate_reward_short; [reflexivity|]. simpl. lia.
Qed.

Lemma get_reward_components_zero_state :
  ∃ components : gmap string R,
    returned (get_reward_components zero_state 0) __init__ = Ok components
    ∧ size components = 5%nat
    ∧ components !! "reward" = Some 0.
Proof.
  destruct (get_reward_components_five_fields __init__ zero_state 0)
    as (components & r & u & xp & na & st & Hret & _ & Hsize & _ & _ & _ & _ & Hr & _ & Hcalc).
  { simpl. lia. }
  exists components. split; [exact Hret|]. split; [exact Hsize|].
  rewrite Hr. f_equal.
  unfold returned, zero_state in Hcalc. simpl tp_env.zeros in Hcalc.
  rewrite (calculate_reward_call _ 0 0 0 0 0 0 0 0 0 0 0 0 []) in Hcalc.
  simpl in Hcalc. injection Hcalc as <- _ _ _ _.
  rewrite cos_0, Rabs_R0, Rminus_diag. rewrite Rabs_R0. lra.
Defined.

(** C6.  On a state of at least twelve components the fourth returned value
    is the alignment weight times the cyclic sum of the absolute differences
    of the three angles (components 3, 6 and 9), divided by π; it is 0 when
    the three angles are equal. *)
Theorem misalignment_penalty_cyclic_sum self state terminated current_step :
  (12 ≤ length state)%nat →
  ∃ th1 th2 th3 reward upright_reward x_penalty non_alignement_penalty stability_penalty,
    state !! 3%nat = Some th1 ∧ state !! 6%nat = Some th2 ∧ state !! 9%nat = Some th3
    ∧ returned (calculate_reward state terminated current_step) self
      = Ok (reward, upright_reward, x_penalty, non_alignement_penalty, stability_penalty)
    ∧ non_alignement_penalty
      = alignement_weight self * (Rabs (th1 - th2) + Rabs (th2 - th3) + Rabs (th3 - th1)) / PI
    ∧ (th1 = th2 → th2 = th3 → non_alignement_penalty = 0).
Proof.
  intros Hlen.
  destruct (twelve_components state Hlen) as (x&?&?&th1&d1&a1&th2&d2&a2&th3&d3&a3&rest&->).
  unfold returned. rewrite calculate_reward_call.
  exists th1, th2, th3. eexists _, _, _, _, _.
  do 3 (split; [reflexivity|]).
  split; [reflexivity|]. split; [reflexivity|].
  intros -> ->. rewrite Rminus_diag, Rabs_R0. lra.
Qed.

Lemma misalignment_penalty_aligned_state :
  ∃ reward upright_reward x_penalty stability_penalty,
    returned (calculate_reward (aligned_state (PI / 2)) false 0) __init__
    = Ok (reward, upright_reward, x_penalty, 0, stability_penalty).
Proof.
  destruct (misalignment_penalty_cyclic_sum __init__ (aligned_state (PI / 2)) false 0)
    as (th1 & th2 & th3 & r & u & xp & na & st & H1 & H2 & H3 & Hret & _ & Hzero).
  { simpl. lia. }
  exists r, u, xp, st. rewrite Hret. do 3 f_equal.
  simpl in H1, H2, H3. apply Hzero; congruence.
Defined.

(** C2, where the code departs from it.  The first tip is the cart plus
    [L·(sin θ₁, −cos θ₁)], but the second and third tips add [+L·cos θ] to
    the ordinate of the previous tip, so each lies [2·L·cos θ] off the tip of
    the specification.  With the three angles at 0 the tips of the code are
    at ordinates −0.5, 0 and 0.5 where the specification has −0.5, −1 and
    −1.5, and the returned uprightness reward is 0 where the specification
    has 3. *)
Theorem second_and_third_tips_add_cosine :
  (∀ self x th1 th2 th3,
     let '(p1, p2, p3) := pendulum_positions self x th1 th2 th3 in
     p1 = spec_tip (length_ self) (x, 0) th1
     ∧ p2.1 = (spec_tip (length_ self) p1 th2).1
     ∧ p2.2 = (spec_tip (length_ self) p1 th2).2 + 2 * length_ self * cos th2
     ∧ p3.1 = (spec_tip (length_ self) p2 th3).1
     ∧ p3.2 = (spec_tip (length_ self) p2 th3).2 + 2 * length_ self * cos th3)
  ∧ pendulum_positions __init__ 0 0 0 0 = ((0, -0.5), (0, 0), (0, 0.5))
  ∧ spec_tip 0.5 (0, -0.5) 0 = (0, -1)
  ∧ spec_tip 0.5 (0, -1) 0 = (0, -1.5)
  ∧ returned (calculate_reward zero_state false 0) __init__ = Ok (0, 0, 0, 0, 0)
  ∧ spec_uprightness (upright_weight __init__) (length_ __init__) 0 0 0 0 = 3.
Proof.
  split.
  { intros self x th1 th2 th3. unfold pendulum_positions, spec_tip. simpl.
    repeat split; try reflexivity; try (f_equal; lra); lra. }
  unfold pendulum_positions, spec_tip, spec_uprightness, spec_tip. simpl.
  rewrite sin_0, cos_0.
  split; [repeat f_equal; lra|].
  split; [f_equal; lra|].
  split; [f_equal; lra|].
  split; [|lra].
  unfold returned, zero_state. simpl tp_env.zeros.
  rewrite (calculate_reward_call _ 0 0 0 0 0 0 0 0 0 0 0 0 []).
  unfold reward_of, pendulum_positions. simpl.
  rewrite cos_0, Rabs_R0, Rminus_diag, Rabs_R0.
  repeat f_equal; lra.
Qed.
End reward_properties.

(** ** The environment *)

Section env_properties.
Import tp_env samples.
Local Open Scope R_scope.

Lemma reset_call self :
  call reset self =
    (Ok (0 :: replicate (n self) (- PI / 2) ++ replicate (n self + 1) 1e-3),
     set_state_and_time
       (0 :: replicate (n self) (- PI / 2) ++ replicate (n self + 1) 1e-3) 0 self).
Proof.
  unfold reset. rewrite call_bind. simpl.
  unfold hstack, scale, ones, len_q, len_u. simpl.
  replace (n self + 1 - 1)%nat with (n self) by lia.
  rewrite !fmap_replicate, app_nil_r.
  replace (- PI / 2 * 1) with (- PI / 2) by lra.
  replace (1e-3 * 1) with 1e-3 by lra.
  replace 0.0 with 0 by lra.
  reflexivity.
Qed.

(** C4.  [reset] returns a vector of [2n+2] components: the cart position is
    0, the [n] angles are −π/2, the [n+1] velocities are the nonzero constant
    1e-3.  It stores that vector as the current state and sets the clock to 0.
    A second [reset] returns the same vector and leaves the same environment,
    and so does [reset] on any environment with the same number of links. *)
Theorem reset_initial_state (self : TriplePendulumEnv) :
  ∃ state : list R,
    returned reset self = Ok state
    ∧ length state = (2 * n self + 2)%nat
    ∧ state !! 0%nat = Some 0
    ∧ (∀ i, (1 ≤ i ≤ n self)%nat → state !! i = Some (- PI / 2))
    ∧ (∀ i, (n self + 1 ≤ i ≤ 2 * n self + 1)%nat → state !! i = Some 1e-3)
    ∧ 1e-3 ≠ 0
    ∧ current_time (after reset self) = 0
    ∧ current_state (after reset self) = Some state
    ∧ call reset (after reset self) = call reset self
    ∧ (∀ other, n other = n self → returned reset other = Ok state).
Proof.
  eexists. unfold returned, after. rewrite !reset_call. cbn [fst snd].
  split; [reflexivity|].
  split; [rewrite ?length_cons, ?length_app, ?length_replicate; lia|].
  split; [reflexivity|].
  split.
  { intros i [Hlo Hhi]. destruct i as [|i]; [lia|]. simpl.
    rewrite lookup_app_l by (rewrite length_replicate; lia).
    apply lookup_replicate_2. lia. }
  split.
  { intros i [Hlo Hhi]. destruct i as [|i]; [lia|]. simpl.
    rewrite lookup_app_r by (rewrite length_replicate; lia).
    apply lookup_replicate_2. rewrite length_replicate. lia. }
  split; [lra|].
  split; [reflexivity|].
  split; [reflexivity|].
  split; [reflexivity|].
  intros other Hn. rewrite reset_call, Hn. reflexivity.
Qed.

(** C3.  [calculate_reward] unpacks components 0 to 11 of the state as
    [x, x_dot, x_ddot, th1, th1_dot, th1_ddot, ..., th3_ddot]: on a state with
    these twelve components it returns the tuple computed from them, whatever
    follows them; on a shorter state it raises ValueError, and so does
    [get_reward_components].  The state that [reset] returns for at most four
    links has [2n+2 < 12] components, so the reward cannot be computed on it. *)
Theorem calculate_reward_reads_twelve_components
    (self : reward.RewardManager) (terminated : bool) (current_step : Z) :
  (∀ x x_dot x_ddot th1 th1_dot th1_ddot th2 th2_dot th2_ddot th3 th3_dot th3_ddot rest,
     returned (reward.calculate_reward
                 ([x; x_dot; x_ddot; th1; th1_dot; th1_ddot;
                   th2; th2_dot; th2_ddot; th3; th3_dot; th3_ddot] ++ rest)
                 terminated current_step) self
     = Ok (reward.reward_of self x th1 th1_dot th1_ddot th2 th2_dot th2_ddot
                            th3 th3_dot th3_ddot terminated))
  ∧ (∀ state : list R,
       (length state < 12)%nat →
       returned (reward.calculate_reward state terminated current_step) self
       = Raise ValueError
       ∧ returned (reward.get_reward_components state current_step) self
         = Raise ValueError)
  ∧ (∀ env : TriplePendulumEnv,
       (n env ≤ 4)%nat →
       ∃ state : list R,
         returned reset env = Ok state
         ∧ length state = (2 * n env + 2)%nat
         ∧ returned (reward.calculate_reward state terminated current_step) self
           = Raise ValueError).
Proof.
  split; [|split].
  - intros. unfold returned. by rewrite calculate_reward_call.
  - intros state Hlen. unfold returned.
    rewrite get_reward_components_call, !calculate_reward_short by done. done.
  - intros env Hn. eexists. unfold returned at 1. rewrite reset_call.
    split; [reflexivity|].
    assert (Hlen : length (0 :: replicate (n env) (- PI / 2) ++ replicate (n env + 1) 1e-3)
                   = (2 * n env + 2)%nat)
      by (rewrite length_cons, length_app, !length_replicate; lia).
    split; [exact Hlen|].
    unfold returned. rewrite calculate_reward_short; [done|lia].
Qed.

Lemma calculate_reward_raises_on_reset_state :
  ∃ state : list R,
    returned reset trainer_env = Ok state
    ∧ length state = 6%nat
    ∧ returned (reward.calculate_reward state true 0) reward.__init__ = Raise ValueError.
Proof.
  destruct (calculate_reward_reads_twelve_components reward.__init__ true 0)
    as (_ & _ & Hreset).
  destruct (Hreset trainer_env) as (state & Hret & Hlen & Hraise).
  { simpl. lia. }
  exists state. split; [exact Hret|]. split; [exact Hlen|]. exact Hraise.
Defined.

(** C1, where the code departs from it.  The class [TriplePendulumEnv] has no
    attribute [step]: neither its constructor nor its body defines one (the
    only [step] of [tp_env.py] is a function local to [animate_pendulum]).  The
    call [self.env.step(action)] of the trainer therefore raises
    AttributeError on every environment and every action, where the claim has
    it return a state and a flag. *)
Theorem env_step_raises_AttributeError
    (invoke : attribute → R → result (list R * bool))
    (env : TriplePendulumEnv) (action : R) :
  getattr env "step" = Raise AttributeError
  ∧ train.env_step invoke env action = Raise AttributeError.
Proof. split; reflexivity. Qed.

Lemma add_same_length (a b : list R) :
  length a = length b → add a b = Ok (zip_with Rplus a b).
Proof. intros Hlen. unfold add. by rewrite decide_True. Qed.

Lemma travel_limits :
  xmax - cart_width / 2 = 1.8 ∧ xmin + cart_width / 2 = -1.8.
Proof. unfold xmax, xmin, cart_width, window_width. split; lra. Qed.

Lemma clamp_right (k : nat) (next_state : list R) (x : R) :
  next_state !! 0%nat = Some x → (k < length next_state)%nat →
  x > xmax - cart_width / 2 →
  clamp k next_state = Ok (<[k := 0]> (<[0%nat := xmax - cart_width / 2]> next_state)).
Proof.
  intros Hx Hk Hgt. unfold clamp, getitem. rewrite Hx. cbn.
  destruct travel_limits as [Hmax Hmin].
  destruct (Rlt_dec (x - cart_width / 2) xmin) as [Hlt|_]; [lra|].
  destruct (Rgt_dec (x + cart_width / 2) xmax) as [_|Hn]; [|lra].
  unfold setitem. rewrite decide_True by (destruct next_state; simpl in *; lia). cbn.
  by rewrite decide_True by (rewrite length_insert; lia).
Qed.

Lemma clamp_left (k : nat) (next_state : list R) (x : R) :
  next_state !! 0%nat = Some x → (k < length next_state)%nat →
  x < xmin + cart_width / 2 →
  clamp k next_state = Ok (<[k := 0]> (<[0%nat := xmin + cart_width / 2]> next_state)).
Proof.
  intros Hx Hk Hlt. unfold clamp, getitem. rewrite Hx. cbn.
  destruct (Rlt_dec (x - cart_width / 2) xmin) as [_|Hn]; [|lra].
  unfold setitem. rewrite decide_True by (destruct next_state; simpl in *; lia). cbn.
  by rewrite decide_True by (rewrite length_insert; lia).
Qed.

Lemma clamp_inside (k : nat) (next_state : list R) (x : R) :
  next_state !! 0%nat = Some x →
  xmin + cart_width / 2 <= x <= xmax - cart_width / 2 →
  clamp k next_state = Ok next_state.
Proof.
  intros Hx [Hlo Hhi]. unfold clamp, getitem. rewrite Hx. cbn.
  destruct (Rlt_dec (x - cart_width / 2) xmin) as [Hlt|_]; [lra|].
  destruct (Rgt_dec (x + cart_width / 2) xmax) as [Hgt|_]; [lra|]. done.
Qed.

Lemma call_lift {S A} (r : result A) (self : S) : call (lift r) self = (r, self).
Proof. reflexivity. Qed.

(** One integrating frame of [step], when every operation succeeds. *)
Lemma step_call solve_MF self states steps frame current dx next :
  (Z.of_nat frame < steps - 1)%Z →
  states !! frame = Some current →
  rhs solve_MF self current (INR frame * dt self) (parameter_vals self)
      (Some (λ _, applied_force self
                  + force_smoothing self * (target_force self - applied_force self)))
  = Ok dx →
  length dx = length current →
  clamp (num_joints states) (zip_with Rplus current (times dx (dt self))) = Ok next →
  length next = shape1 states →
  (frame + 1 < length states)%nat →
  call (step solve_MF steps frame) (self, states)
  = (Ok tt,
     (set_frame_and_force frame
        (applied_force self + force_smoothing self * (target_force self - applied_force self))
        self,
      <[(frame + 1)%nat := next]> states)).
Proof.
  intros Hframe Hcur Hrhs Hdx Hclamp Hnext Hrow.
  unfold step. rewrite call_bind. cbn [call get_self].
  apply Z.ltb_lt in Hframe. rewrite Hframe.
  rewrite call_bind. cbn [call set_self].
  rewrite call_bind, call_lift. unfold getitem. rewrite Hcur.
  rewrite call_bind, call_lift, Hrhs.
  rewrite call_bind, call_lift, add_same_length
    by (unfold times; rewrite length_fmap; congruence).
  rewrite call_bind, call_lift, Hclamp.
  rewrite call_bind, call_lift. unfold setrow.
  rewrite decide_True by done. rewrite decide_True by done.
  reflexivity.
Qed.

(** One iteration of the loop of the main block: the state is integrated and
    appended as it is, with no wall contact. *)
Lemma main_loop_body_call solve_MF env state states dx :
  rhs solve_MF env state (current_time env) (parameter_vals env) (Some (λ _, 0.0)) = Ok dx →
  length dx = length state →
  call (main_loop_body solve_MF) (env, state, states)
  = (Ok tt,
     (set_current_time (current_time env + dt env) env,
      zip_with Rplus state (times dx (dt env)),
      states ++ [zip_with Rplus state (times dx (dt env))])).
Proof.
  intros Hrhs Hdx. unfold main_loop_body.
  rewrite call_bind. cbn [call get_self].
  rewrite call_bind, call_lift, Hrhs.
  rewrite call_bind. cbn [call set_self].
  rewrite call_bind, call_lift, add_same_length
    by (unfold times; rewrite length_fmap; congruence).
  reflexivity.
Qed.

(** C7, as the code has it.  In [step] of [animate_pendulum], on an array of
    states of [2k+2] columns, when the integrated cart position [x + v·dt]
    lies beyond the right travel limit [xmax − cart_width/2] the stored next
    state has the cart exactly at that limit and the cart velocity (component
    [k+1]) at 0, the other components being the integrated ones;
    symmetrically at the left limit [xmin + cart_width/2].  The call returns
    without raising.  The limits are 1.8 and −1.8.  The loop of the main
    block has no travel limits: one iteration appends the integrated state
    [state + dx·dt] as it is, whatever its cart position. *)
Theorem step_clamps_at_travel_limit
    (solve_MF : list R → result (list R))
    (self : TriplePendulumEnv) (states : list (list R)) (steps : Z) (frame k : nat)
    (current dx : list R) (x v : R) :
  (Z.of_nat frame < steps - 1)%Z →
  (frame + 1 < length states)%nat →
  states !! frame = Some current →
  shape1 states = (2 * k + 2)%nat →
  length current = (2 * k + 2)%nat →
  rhs solve_MF self current (INR frame * dt self) (parameter_vals self)
      (Some (λ _, applied_force self
                  + force_smoothing self * (target_force self - applied_force self)))
  = Ok dx →
  length dx = length current →
  current !! 0%nat = Some x →
  dx !! 0%nat = Some v →
  let integrated := zip_with Rplus current (times dx (dt self)) in
  let clamped_to (limit : R) :=
    ∃ next : list R,
      returned (step solve_MF steps frame) (self, states) = Ok tt
      ∧ (after (step solve_MF steps frame) (self, states)).2 !! (frame + 1)%nat = Some next
      ∧ next !! 0%nat = Some limit
      ∧ next !! (k + 1)%nat = Some 0
      ∧ ∀ i, i ≠ 0%nat → i ≠ (k + 1)%nat → next !! i = integrated !! i in
  (x + v * dt self > xmax - cart_width / 2 → clamped_to (xmax - cart_width / 2))
  ∧ (x + v * dt self < xmin + cart_width / 2 → clamped_to (xmin + cart_width / 2))
  ∧ xmax - cart_width / 2 = 1.8
  ∧ xmin + cart_width / 2 = -1.8
  ∧ ∀ (env : TriplePendulumEnv) (state derivative : list R) (rows : list (list R)),
      rhs solve_MF env state (current_time env) (parameter_vals env) (Some (λ _, 0.0))
      = Ok derivative →
      length derivative = length state →
      call (main_loop_body solve_MF) (env, state, rows)
      = (Ok tt,
         (set_current_time (current_time env + dt env) env,
          zip_with Rplus state (times derivative (dt env)),
          rows ++ [zip_with Rplus state (times derivative (dt env))])).
Proof.
  intros Hframe Hrow Hcur Hshape Hlen Hrhs Hdx Hx Hv integrated clamped_to.
  assert (Hint0 : integrated !! 0%nat = Some (x + v * dt self)).
  { unfold integrated, times. destruct current, dx; simpl in *; congruence. }
  assert (Hintlen : length integrated = (2 * k + 2)%nat).
  { unfold integrated, times. rewrite length_zip_with, length_fmap. lia. }
  assert (Hjoints : num_joints states = (k + 1)%nat).
  { unfold num_joints. rewrite Hshape.
    replace (2 * k + 2)%nat with ((k + 1) * 2)%nat by lia. apply Nat.div_mul. lia. }
  assert (Hstep : ∀ limit,
    clamp (num_joints states) integrated
    = Ok (<[(k + 1)%nat := 0]> (<[0%nat := limit]> integrated)) →
    clamped_to limit).
  { intros limit Hclamp.
    exists (<[(k + 1)%nat := 0]> (<[0%nat := limit]> integrated)).
    unfold returned, after.
    rewrite (step_call solve_MF self states steps frame current dx _
               Hframe Hcur Hrhs Hdx Hclamp)
      by (rewrite ?length_insert; lia).
    cbn [fst snd].
    split; [done|].
    split; [by apply list_lookup_insert_eq|].
    split; [rewrite list_lookup_insert_ne by lia;
            apply list_lookup_insert_eq; lia|].
    split; [apply list_lookup_insert_eq; rewrite length_insert; lia|].
    intros i Hi0 Hik. by rewrite !list_lookup_insert_ne by done. }
  destruct travel_limits as [Hmax Hmin].
  split; [|split; [|split; [exact Hmax|split; [exact Hmin|]]]].
  - intros Hgt. apply Hstep. rewrite Hjoints.
    apply (clamp_right _ _ (x + v * dt self)); [done|lia|done].
  - intros Hlt. apply Hstep. rewrite Hjoints.
    apply (clamp_left _ _ (x + v * dt self)); [done|lia|done].
  - intros env state derivative rows Hrhs' Hlen'. by apply main_loop_body_call.
Qed.

Lemma step_clamps_near_wall_state :
  ∃ next : list R,
    returned (step near_wall_solver 2 0) (default, near_wall_states) = Ok tt
    ∧ (after (step near_wall_solver 2 0) (default, near_wall_states)).2 !! 1%nat = Some next
    ∧ next !! 0%nat = Some (xmax - cart_width / 2)
    ∧ next !! 4%nat = Some 0.
Proof.
  destruct (step_clamps_at_travel_limit near_wall_solver default near_wall_states
              2 0 3 near_wall_state [5; 0; 0; 0; 0; 0; 0; 0] 1.79 5)
    as (Hright & _); try reflexivity; try (simpl; lia).
  destruct Hright as (next & Hret & Hrow & Hpos & Hvel & _).
  { unfold xmax, cart_width, window_width. simpl. lra. }
  exists next. split; [exact Hret|]. split; [exact Hrow|]. split; [exact Hpos|exact Hvel].
Defined.

(** C7 as stated fails for the integration steps of the main block: from a
    cart at 1.79 moving right at speed 5, one iteration of its loop yields a
    state whose cart is at 1.79 + 5·0.01 = 1.84, beyond the travel limit 1.8,
    and whose cart velocity is still 5. *)
Lemma main_loop_leaves_the_track :
  ∃ (next : list R) (x v : R),
    returned (main_loop_body near_wall_solver) (default, near_wall_state, [near_wall_state])
    = Ok tt
    ∧ (after (main_loop_body near_wall_solver)
             (default, near_wall_state, [near_wall_state])).1.2 = next
    ∧ next !! 0%nat = Some x ∧ x > xmax - cart_width / 2
    ∧ next !! 4%nat = Some v ∧ v > 0.
Proof.
  eexists _, (1.79 + 5 * dt default), (5 + 0 * dt default).
  unfold returned, after.
  rewrite (main_loop_body_call near_wall_solver default near_wall_state _
             [5; 0; 0; 0; 0; 0; 0; 0]) by reflexivity.
  cbn [fst snd].
  split; [reflexivity|]. split; [reflexivity|]. split; [reflexivity|].
  split; [unfold xmax, cart_width, window_width; simpl; lra|].
  split; [reflexivity|simpl; lra].
Qed.
End env_properties.

(** ** The state check of the trainer *)

Section rounding_is_never_nan.
Local Open Scope Z_scope.
Variables prec emax : Z.

Lemma shr_1_nonneg mrs : 0 ≤ shr_m mrs → 0 ≤ shr_m (shr_1 mrs).
Proof. destruct mrs as [[|[m|m|]|m] r s]; simpl; lia. Qed.

Lemma iter_shr_1_nonneg p mrs : 0 ≤ shr_m mrs → 0 ≤ shr_m (iter_pos shr_1 p mrs).
Proof.
  revert mrs. induction p as [p IH|p IH|]; intros mrs Hm; simpl.
  - apply IH, IH, shr_1_nonneg, Hm.
  - apply IH, IH, Hm.
  - apply shr_1_nonneg, Hm.
Qed.

Lemma shr_fexp_nonneg m e l : 0 ≤ m → 0 ≤ shr_m (shr_fexp prec emax m e l).1.
Proof.
  intros Hm. unfold shr_fexp, shr.
  assert (0 ≤ shr_m (shr_record_of_loc m l)) by (by destruct l as [|[]]).
  destruct (fexp prec emax (Zdigits2 m + e) - e); simpl; [done| |done].
  by apply iter_shr_1_nonneg.
Qed.

Lemma round_nearest_even_nonneg m l : 0 ≤ m → 0 ≤ round_nearest_even m l.
Proof.
  intros Hm. destruct l as [|[]]; simpl; try lia.
  destruct (Z.even m); lia.
Qed.

Lemma binary_round_aux_not_nan sx mx ex lx :
  0 ≤ mx → binary_round_aux prec emax sx mx ex lx ≠ S754_nan.
Proof.
  intros Hm. unfold binary_round_aux.
  pose proof (shr_fexp_nonneg mx ex lx Hm) as H1.
  destruct (shr_fexp prec emax mx ex lx) as [mrs' e']. simpl in H1.
  pose proof (shr_fexp_nonneg _ e' loc_Exact
                (round_nearest_even_nonneg _ (loc_of_shr_record mrs') H1)) as H2.
  destruct (shr_fexp prec emax _ e' loc_Exact) as [mrs'' e'']. simpl in H2.
  destruct (shr_m mrs'') as [|m|m]; [done| |lia].
  by destruct (e'' <=? emax - prec).
Qed.

Lemma binary_normalize_not_nan m e szero :
  binary_normalize prec emax m e szero ≠ S754_nan.
Proof.
  destruct m as [|m|m]; simpl; [done| |]; unfold binary_round;
    destruct (shl_align _ _ _) as [mz ez]; by apply binary_round_aux_not_nan.
Qed.

(** Rounding gives its result the sign it is asked for. *)
Lemma binary_round_aux_same_sign sx mx ex lx :
  0 ≤ mx → train.same_sign sx (binary_round_aux prec emax sx mx ex lx).
Proof.
  intros Hm. unfold binary_round_aux.
  pose proof (shr_fexp_nonneg mx ex lx Hm) as H1.
  destruct (shr_fexp prec emax mx ex lx) as [mrs' e']. simpl in H1.
  pose proof (shr_fexp_nonneg _ e' loc_Exact
                (round_nearest_even_nonneg _ (loc_of_shr_record mrs') H1)) as H2.
  destruct (shr_fexp prec emax _ e' loc_Exact) as [mrs'' e'']. simpl in H2.
  destruct (shr_m mrs'') as [|m|m]; [done| |lia].
  by destruct (e'' <=? emax - prec).
Qed.

Lemma binary_round_same_sign sx mx ex :
  train.same_sign sx (binary_round prec emax sx mx ex).
Proof.
  unfold binary_round. destruct (shl_align _ _ _) as [mz ez].
  by apply binary_round_aux_same_sign.
Qed.
End rounding_is_never_nan.

Section check_properties.
Import train samples.

Lemma float64_add_nan_l v : float64_add S754_nan v = S754_nan.
Proof. reflexivity. Qed.

Lemma float64_add_nan_r v : float64_add v S754_nan = S754_nan.
Proof. by destruct v. Qed.

Lemma float64_add_zero_l v : np_isnan (float64_add (S754_zero false) v) = np_isnan v.
Proof. by destruct v as [[]| | |]. Qed.

Lemma float64_add_finite acc v :
  np_isnan acc = false → is_finite v = true → np_isnan (float64_add acc v) = false.
Proof.
  intros Hacc Hv.
  destruct (float64_add acc v) eqn:Hadd; try reflexivity. exfalso.
  destruct acc as [sa|sa| |sa ma ea], v as [sv|sv| |sv mv ev];
    try discriminate; unfold float64_add in Hadd; simpl in Hadd;
    try (destruct sa, sv; discriminate).
  by apply binary_normalize_not_nan in Hadd.
Qed.

Lemma foldl_add_finite a acc :
  np_isnan acc = false → Forall (λ v, is_finite v = true) a →
  np_isnan (foldl float64_add acc a) = false.
Proof.
  intros Hacc Hall. revert acc Hacc.
  induction Hall as [|v a Hv _ IH]; intros acc Hacc; [done|].
  simpl. apply IH. by apply float64_add_finite.
Qed.

(** Two values that are zeros or share a sign add up to such a value. *)
Lemma float64_add_same_sign (s : bool) x y :
  same_sign s x → same_sign s y → same_sign s (float64_add x y).
Proof.
  destruct x as [sx|sx| |sx mx ex], y as [sy|sy| |sy my ey]; simpl;
    try done; try (intros -> ->; by destruct s); try (by destruct sx, sy).
  intros -> ->. unfold float64_add, SFadd.
  destruct s; simpl; apply binary_round_same_sign.
Qed.

(** An infinity or a NaN on either side of an addition stays, or turns into
    NaN. *)
Lemma float64_add_stuck_l (s : bool) x y : stuck_at s x → stuck_at s (float64_add x y).
Proof.
  unfold stuck_at, float64_add. intros [-> | ->]; [|by right].
  destruct y as [sy|sy| |sy my ey]; simpl; try (by left); try (by right).
  destruct s, sy; first [by left|by right].
Qed.

Lemma float64_add_stuck_r (s : bool) x y : stuck_at s y → stuck_at s (float64_add x y).
Proof.
  unfold stuck_at, float64_add. intros [-> | ->]; [|right; by destruct x].
  destruct x as [sx|sx| |sx mx ex]; simpl; try (by left); try (by right).
  destruct sx, s; first [by left|by right].
Qed.

(** What the zeros have and every addition keeps, the sum of an array of
    such values has. *)
Section closed.
Variable P : float64 → Prop.
Hypothesis P_zero : ∀ s, P (S754_zero s).
Hypothesis P_add : ∀ x y, P x → P y → P (float64_add x y).

Lemma foldl_closed a acc : P acc → Forall P a → P (foldl float64_add acc a).
Proof.
  intros Hacc Hall. revert acc Hacc.
  induction Hall as [|v a Hv _ IH]; intros acc Hacc; [done|].
  simpl. apply IH. by apply P_add.
Qed.

Lemma reduce8_closed r : lanes_all P r → P (reduce8 r).
Proof.
  intros (?&?&?&?&?&?&?&?). unfold reduce8. repeat apply P_add; done.
Qed.

Lemma unrolled_closed a r : lanes_all P r → Forall P a → P (unrolled r a).
Proof.
  remember (length a) as n eqn:Hn. revert a r Hn.
  induction n as [n IH] using lt_wf_ind. intros a r Hn Hr Hall.
  destruct a as [|a0 [|a1 [|a2 [|a3 [|a4 [|a5 [|a6 [|a7 a]]]]]]]];
    try (apply foldl_closed; [by apply reduce8_closed|done]).
  cbn [unrolled].
  repeat match goal with
         | H : Forall P (_ :: _) |- _ => apply Forall_cons in H as [? H]
         end.
  apply (IH (length a)); [subst n; simpl; lia|done| |done].
  destruct Hr as (?&?&?&?&?&?&?&?).
  repeat split; cbn; by apply P_add.
Qed.

Lemma block_sum_closed a : Forall P a → P (block_sum a).
Proof.
  intros Hall.
  destruct a as [|a0 [|a1 [|a2 [|a3 [|a4 [|a5 [|a6 [|a7 a]]]]]]]];
    try (apply foldl_closed; [apply P_zero|done]).
  cbn [block_sum].
  repeat match goal with
         | H : Forall P (_ :: _) |- _ => apply Forall_cons in H as [? H]
         end.
  apply unrolled_closed; [|done]. by repeat split.
Qed.

Lemma pairwise_sum_closed depth a : Forall P a → P (pairwise_sum depth a).
Proof.
  revert a. induction depth as [|depth IH]; intros a Hall; simpl;
    [by apply block_sum_closed|].
  destruct (decide _); [by apply block_sum_closed|].
  apply P_add; apply IH; [by apply Forall_take|by apply Forall_drop].
Qed.

Lemma np_sum_closed a : Forall P a → P (np_sum a).
Proof. intros Hall. apply P_add; [apply P_zero|by apply pairwise_sum_closed]. Qed.
End closed.

(** What no addition loses again, on either side, the sum of an array has as
    soon as one element has it: every element enters the sum. *)
Section absorbing.
Variable P : float64 → Prop.
Hypothesis P_add_l : ∀ x y, P x → P (float64_add x y).
Hypothesis P_add_r : ∀ x y, P y → P (float64_add x y).

Lemma foldl_absorbing a acc : P acc ∨ Exists P a → P (foldl float64_add acc a).
Proof.
  revert acc. induction a as [|v a IH]; intros acc [Hacc|Hex]; simpl.
  - done.
  - by apply Exists_nil in Hex.
  - apply IH. left. by apply P_add_l.
  - apply IH. apply Exists_cons in Hex as [Hv|Hex]; [left; by apply P_add_r|by right].
Qed.

Lemma reduce8_absorbing r : lanes_some P r → P (reduce8 r).
Proof.
  unfold reduce8.
  intros [?|[?|[?|[?|[?|[?|[?|?]]]]]]];
    [ do 3 apply P_add_l | apply P_add_l, P_add_l, P_add_r
    | apply P_add_l, P_add_r, P_add_l | apply P_add_l, P_add_r, P_add_r
    | apply P_add_r, P_add_l, P_add_l | apply P_add_r, P_add_l, P_add_r
    | apply P_add_r, P_add_r, P_add_l | do 3 apply P_add_r ]; done.
Qed.

Lemma unrolled_absorbing a r : lanes_some P r ∨ Exists P a → P (unrolled r a).
Proof.
  remember (length a) as n eqn:Hn. revert a r Hn.
  induction n as [n IH] using lt_wf_ind. intros a r Hn Hsome.
  assert (Hrest : P (foldl float64_add (reduce8 r) a)).
  { apply foldl_absorbing.
    destruct Hsome as [Hr|Ha]; [left; by apply reduce8_absorbing|by right]. }
  destruct a as [|a0 [|a1 [|a2 [|a3 [|a4 [|a5 [|a6 [|a7 a]]]]]]]]; try exact Hrest.
  clear Hrest. cbn [unrolled].
  apply (IH (length a)); [subst n; simpl; lia|done|].
  destruct Hsome as [Hr|Ha].
  - left. unfold lanes_some in *. cbn.
    destruct Hr as [?|[?|[?|[?|[?|[?|[?|?]]]]]]];
      [ left | right; left | do 2 right; left | do 3 right; left
      | do 4 right; left | do 5 right; left | do 6 right; left | do 7 right ];
      by apply P_add_l.
  - rewrite !Exists_cons in Ha. unfold lanes_some. cbn.
    destruct Ha as [?|[?|[?|[?|[?|[?|[?|[?|?]]]]]]]]; [..|by right]; left;
      [ left | right; left | do 2 right; left | do 3 right; left
      | do 4 right; left | do 5 right; left | do 6 right; left | do 7 right ];
      by apply P_add_r.
Qed.

Lemma block_sum_absorbing a : Exists P a → P (block_sum a).
Proof.
  intros Hex.
  assert (Hrest : P (foldl float64_add (S754_zero true) a))
    by (apply foldl_absorbing; by right).
  destruct a as [|a0 [|a1 [|a2 [|a3 [|a4 [|a5 [|a6 [|a7 a]]]]]]]]; try exact Hrest.
  clear Hrest. cbn [block_sum]. apply unrolled_absorbing.
  rewrite !Exists_cons in Hex. unfold lanes_some. cbn.
  destruct Hex as [?|[?|[?|[?|[?|[?|[?|[?|?]]]]]]]]; [..|by right]; left; tauto.
Qed.

Lemma pairwise_sum_absorbing depth a : Exists P a → P (pairwise_sum depth a).
Proof.
  revert a. induction depth as [|depth IH]; intros a Hex; simpl;
    [by apply block_sum_absorbing|].
  destruct (decide _); [by apply block_sum_absorbing|].
  set (n2 := (_ - _)%nat).
  rewrite <- (take_drop n2 a) in Hex. apply Exists_app in Hex as [Hex|Hex].
  - apply P_add_l. by apply IH.
  - apply P_add_r. by apply IH.
Qed.

Lemma np_sum_absorbing a : Exists P a → P (np_sum a).
Proof. intros Hex. apply P_add_r. by apply pairwise_sum_absorbing. Qed.
End absorbing.

(** More depth than the length of the array changes nothing: the depth that
    [np_sum] gives is never used up. *)
Lemma pairwise_sum_depth depth a :
  (length a ≤ depth)%nat → pairwise_sum (S depth) a = pairwise_sum depth a.
Proof.
  revert a. induction depth as [|depth IH]; intros a Hlen.
  - simpl. destruct (decide _); [done|lia].
  - change (pairwise_sum (S (S depth)) a)
      with (if decide (length a ≤ 128)%nat then block_sum a
            else let n2 := (length a `div` 2)%nat in
                 let n2 := (n2 - n2 `mod` 8)%nat in
                 float64_add (pairwise_sum (S depth) (take n2 a))
                             (pairwise_sum (S depth) (drop n2 a))).
    change (pairwise_sum (S depth) a)
      with (if decide (length a ≤ 128)%nat then block_sum a
            else let n2 := (length a `div` 2)%nat in
                 let n2 := (n2 - n2 `mod` 8)%nat in
                 float64_add (pairwise_sum depth (take n2 a))
                             (pairwise_sum depth (drop n2 a))).
    destruct (decide _) as [|Hbig]; [done|]. cbn zeta.
    set (half := (length a `div` 2)%nat).
    assert (Hhalf : (64 ≤ half ∧ half < length a)%nat).
    { unfold half. split; [apply Nat.div_le_lower_bound; lia|apply Nat.div_lt; lia]. }
    assert (Hmod : (half `mod` 8 < 8)%nat) by (apply Nat.mod_upper_bound; lia).
    rewrite !IH; [done| |].
    + rewrite length_drop. lia.
    + rewrite length_take. lia.
Qed.

(** Fewer than eight elements are added from left to right. *)
Lemma np_sum_short a :
  (length a < 8)%nat →
  np_sum a = float64_add (S754_zero false) (foldl float64_add (S754_zero true) a).
Proof.
  intros Hlen. unfold np_sum. f_equal.
  assert (Hblock : block_sum a = foldl float64_add (S754_zero true) a).
  { destruct a as [|a0 [|a1 [|a2 [|a3 [|a4 [|a5 [|a6 [|a7 a]]]]]]]]; try done.
    simpl in Hlen. lia. }
  destruct (length a) eqn:Hn; simpl; [exact Hblock|].
  by rewrite decide_True by lia.
Qed.

Lemma np_sum_nan_component a : S754_nan ∈ a → np_sum a = S754_nan.
Proof.
  intros Hin. apply (np_sum_absorbing (λ v, v = S754_nan)).
  - intros x y ->. apply float64_add_nan_l.
  - intros x y ->. apply float64_add_nan_r.
  - apply Exists_exists. by exists S754_nan.
Qed.

Lemma np_sum_stuck (s : bool) a : S754_infinity s ∈ a → stuck_at s (np_sum a).
Proof.
  intros Hin. apply (np_sum_absorbing (stuck_at s)).
  - apply float64_add_stuck_l.
  - apply float64_add_stuck_r.
  - apply Exists_exists. exists (S754_infinity s). split; [done|by left].
Qed.

(** C10 as stated fails: a state with an infinite component and no NaN
    passes the check. *)
Lemma check_state_accepts_infinite_state :
  S754_infinity false ∈ infinite_state
  ∧ is_inf (S754_infinity false) = true
  ∧ np_sum infinite_state = S754_infinity false
  ∧ check_state infinite_state = Ok tt.
Proof. split; [apply list_elem_of_here|]. by vm_compute. Qed.

(** C10, as the code has it.  The check raises ValueError exactly when
    NumPy's sum of the components is NaN, and it does so whenever some
    component is NaN.  It does not detect infinities: a state without NaN
    whose components are zeros or share one sign is accepted, infinite
    components included.  A state of finite components is accepted when it
    has fewer than eight of them; from eight components on, the partial sums
    of the pairwise summation can overflow to infinities of both signs, and
    the state [overflow_state] of eight finite components is rejected. *)
Theorem check_state_detects_nan (next_state : list float64) :
  (check_state next_state = Raise ValueError ↔ np_sum next_state = S754_nan)
  ∧ (check_state next_state = Ok tt ↔ np_sum next_state ≠ S754_nan)
  ∧ (S754_nan ∈ next_state → check_state next_state = Raise ValueError)
  ∧ (∀ s : bool, Forall (same_sign s) next_state → check_state next_state = Ok tt)
  ∧ ((length next_state < 8)%nat → Forall (λ v, is_finite v = true) next_state →
     check_state next_state = Ok tt)
  ∧ (length overflow_state = 8%nat
     ∧ Forall (λ v, is_finite v = true) overflow_state
     ∧ check_state overflow_state = Raise ValueError).
Proof.
  unfold check_state.
  split; [|split; [|split; [|split; [|split]]]].
  - destruct (np_sum next_state); simpl; split; done.
  - destruct (np_sum next_state); simpl; split; done.
  - intros Hin. by rewrite (np_sum_nan_component _ Hin).
  - intros s Hall.
    pose proof (np_sum_closed (same_sign s) (λ _, I) (float64_add_same_sign s)
                  next_state Hall) as Hsign.
    by destruct (np_sum next_state).
  - intros Hlen Hall. rewrite np_sum_short, float64_add_zero_l by done.
    by rewrite foldl_add_finite.
  - split; [done|]. split; [by repeat constructor|by vm_compute].
Qed.
End check_properties.

(** ** More on the reward engine *)

Section reward_bounds.
Import reward samples.
Local Open Scope R_scope.

Lemma cyclic_sum_nonneg (a b c : R) : 0 <= Rabs (a - b) + Rabs (b - c) + Rabs (c - a).
Proof.
  pose proof (Rabs_pos (a - b)). pose proof (Rabs_pos (b - c)).
  pose proof (Rabs_pos (c - a)). lra.
Qed.

Lemma squares_nonneg (a b c : R) : 0 <= (a ^ 2 + b ^ 2 + c ^ 2) / 3.0.
Proof.
  pose proof (pow2_ge_0 a). pose proof (pow2_ge_0 b). pose proof (pow2_ge_0 c). lra.
Qed.

Lemma penalty_terms_nonnegative (w_cart w_align w_stab x th1 th2 th3 d1 d2 d3 a1 a2 a3 : R) :
  0 <= w_cart → 0 <= w_align → 0 <= w_stab →
  0 <= w_cart * Rabs x
  ∧ 0 <= w_align * (Rabs (th1 - th2) + Rabs (th2 - th3) + Rabs (th3 - th1)) / PI
  ∧ 0 <= w_stab * ((d1 ^ 2 + d2 ^ 2 + d3 ^ 2) / 3.0 + (a1 ^ 2 + a2 ^ 2 + a3 ^ 2) / 3.0).
Proof.
  intros Hc Ha Hs.
  pose proof (Rabs_pos x) as Hx.
  pose proof (cyclic_sum_nonneg th1 th2 th3) as Hcyc.
  pose proof (squares_nonneg d1 d2 d3) as Hv.
  pose proof (squares_nonneg a1 a2 a3) as Hacc.
  assert (Hpi : 0 < / PI) by (apply Rinv_0_lt_compat, PI_RGT_0).
  split; [nra|]. split; [|nra].
  unfold Rdiv. apply Rmult_le_pos; [nra|lra].
Qed.

(** X1.  With non-negative weights the three penalties are non-negative, so
    the reward never exceeds the uprightness reward. *)
Theorem penalties_are_nonnegative self state terminated current_step :
  0 <= cart_position_weight self → 0 <= alignement_weight self →
  0 <= stability_weight self → 0 <= termination_penalty self →
  (12 ≤ length state)%nat →
  ∃ reward upright_reward x_penalty non_alignement_penalty stability_penalty,
    returned (calculate_reward state terminated current_step) self
    = Ok (reward, upright_reward, x_penalty, non_alignement_penalty, stability_penalty)
    ∧ 0 <= x_penalty ∧ 0 <= non_alignement_penalty ∧ 0 <= stability_penalty
    ∧ reward <= upright_reward.
Proof.
  intros Hc Ha Hs Ht Hlen.
  destruct (twelve_components state Hlen) as (x&?&?&th1&d1&a1&th2&d2&a2&th3&d3&a3&rest&->).
  unfold returned. rewrite calculate_reward_call. eexists _, _, _, _, _.
  split; [reflexivity|]. cbn zeta.
  destruct (penalty_terms_nonnegative (cart_position_weight self) (alignement_weight self)
              (stability_weight self) x th1 th2 th3 d1 d2 d3 a1 a2 a3 Hc Ha Hs)
    as (H1 & H2 & H3).
  repeat split; try assumption.
  destruct terminated; lra.
Qed.

Lemma penalties_are_nonnegative_zero_state :
  ∃ reward upright_reward x_penalty non_alignement_penalty stability_penalty,
    returned (calculate_reward zero_state true 0) __init__
    = Ok (reward, upright_reward, x_penalty, non_alignement_penalty, stability_penalty)
    ∧ 0 <= x_penalty ∧ 0 <= non_alignement_penalty ∧ 0 <= stability_penalty
    ∧ reward <= upright_reward.
Proof.
  apply (penalties_are_nonnegative __init__ zero_state true 0); simpl; try lra; lia.
Defined.

(** X2.  A manager with the weights of the constructor returns an uprightness
    reward between −3 and 3 and a reward of at most 3, at most −7 on a
    terminated state.  The bound 3 on the uprightness reward is reached with
    the first link at angle 0 and the other two at π. *)
Theorem default_reward_is_bounded history state terminated current_step :
  (12 ≤ length state)%nat →
  (∃ reward upright_reward x_penalty non_alignement_penalty stability_penalty,
     returned (calculate_reward state terminated current_step)
              (perform_all __init__ history)
     = Ok (reward, upright_reward, x_penalty, non_alignement_penalty, stability_penalty)
     ∧ -3 <= upright_reward <= 3
     ∧ reward <= 3
     ∧ (terminated = true → reward <= -7))
  ∧ (∃ reward x_penalty non_alignement_penalty stability_penalty,
       returned (calculate_reward folded_state terminated current_step)
                (perform_all __init__ history)
       = Ok (reward, 3, x_penalty, non_alignement_penalty, stability_penalty)).
Proof.
  intros Hlen.
  rewrite !(calculate_reward_weights_only (perform_all __init__ history) __init__
              _ _ current_step current_step)
    by (pose proof (perform_all_same_weights history __init__) as H;
        unfold same_weights in *; intuition congruence).
  split.
  - destruct (twelve_components state Hlen)
      as (x&?&?&th1&d1&a1&th2&d2&a2&th3&d3&a3&rest&->).
    unfold returned. rewrite calculate_reward_call. eexists _, _, _, _, _.
    split; [reflexivity|].
    unfold pendulum_positions. cbn zeta.
    cbn [length_ upright_weight cart_position_weight alignement_weight
         stability_weight termination_penalty __init__].
    destruct (penalty_terms_nonnegative 1 0.1 0.02 x th1 th2 th3 d1 d2 d3 a1 a2 a3)
      as (H1 & H2 & H3); [lra..|].
    pose proof (COS_bound th1). pose proof (COS_bound th2). pose proof (COS_bound th3).
    split; [split; lra|]. split; [destruct terminated; lra|].
    intros ->. lra.
  - unfold returned, folded_state.
    rewrite (calculate_reward_call _ 0 0 0 0 0 0 PI 0 0 PI 0 0 []).
    eexists _, _, _, _. cbn [fst]. unfold reward_of, pendulum_positions. cbn zeta.
    simpl. rewrite cos_0, cos_PI.
    match goal with
    | |- Ok (_, ?u, _, _, _) = _ => replace u with 3 by lra
    end.
    reflexivity.
Qed.

Lemma default_reward_is_bounded_zero_state :
  ∃ reward upright_reward x_penalty non_alignement_penalty stability_penalty,
    returned (calculate_reward zero_state true 0) __init__
    = Ok (reward, upright_reward, x_penalty, non_alignement_penalty, stability_penalty)
    ∧ -3 <= upright_reward <= 3 ∧ reward <= -7.
Proof.
  destruct (default_reward_is_bounded [] zero_state true 0) as [Hbound _].
  { simpl. lia. }
  destruct Hbound as (r & u & xp & na & st & Hret & Hu & _ & Hterm).
  exists r, u, xp, na, st. split; [exact Hret|]. split; [exact Hu|]. by apply Hterm.
Defined.

Lemma perform_old_state self c :
  perform self c
  = if decide (12 ≤ length (invocation_state c))%nat
    then set_old_state (invocation_state c) self
    else self.
Proof.
  destruct c as [state terminated current_step|state current_step];
    unfold perform, after, invocation_state;
    rewrite ?get_reward_components_call;
    (destruct (decide (12 ≤ length state)%nat) as [Hlen|Hlen];
     [destruct (twelve_components state Hlen) as (?&?&?&?&?&?&?&?&?&?&?&?&?&->);
      by rewrite calculate_reward_call
     |by rewrite calculate_reward_short by lia]).
Qed.

(** X5.  After any sequence of calls of the two methods, [old_state] is the
    state of the last call whose state had at least twelve components, calls
    of [get_reward_components] included; calls that raised left it alone, and
    with no accepted call it is what it was before. *)
Theorem old_state_is_last_accepted_state self (history : list invocation) :
  old_state (perform_all self history)
  = match last (filter (λ state, 12 ≤ length state)%nat (invocation_state <$> history)) with
    | Some state => Some state
    | None => old_state self
    end.
Proof.
  induction history as [|c history IH] using rev_ind; [done|].
  unfold perform_all in *. rewrite foldl_app. simpl.
  rewrite fmap_app, filter_app. simpl.
  rewrite perform_old_state.
  destruct (decide (12 ≤ length (invocation_state c))%nat) as [Hlen|Hlen].
  - rewrite filter_cons_True by done. by rewrite filter_nil, last_snoc.
  - rewrite filter_cons_False by done. by rewrite filter_nil, app_nil_r.
Qed.

(** X6.  The reward is mirror symmetric: negating every component of the
    state (the cart and the links reflected about the origin, with their
    rates) changes none of the five returned values. *)
Theorem reward_is_mirror_symmetric self state terminated current_step :
  returned (calculate_reward (Ropp <$> state) terminated current_step) self
  = returned (calculate_reward state terminated current_step) self.
Proof.
  unfold returned.
  destruct (decide (length state < 12)%nat) as [Hlen|Hlen].
  - by rewrite !calculate_reward_short by (rewrite ?length_fmap; done).
  - destruct (twelve_components state) as (x&?&?&th1&d1&a1&th2&d2&a2&th3&d3&a3&rest&->);
      [lia|].
    rewrite fmap_app. cbn [fmap list_fmap].
    rewrite !calculate_reward_call. cbn [fst]. f_equal.
    unfold reward_of, pendulum_positions. cbn zeta.
    rewrite !cos_neg, Rabs_Ropp.
    replace (- th1 - - th2) with (- (th1 - th2)) by lra.
    replace (- th2 - - th3) with (- (th2 - th3)) by lra.
    replace (- th3 - - th1) with (- (th3 - th1)) by lra.
    rewrite !Rabs_Ropp.
    replace ((- d1) ^ 2) with (d1 ^ 2) by (simpl; lra).
    replace ((- d2) ^ 2) with (d2 ^ 2) by (simpl; lra).
    replace ((- d3) ^ 2) with (d3 ^ 2) by (simpl; lra).
    replace ((- a1) ^ 2) with (a1 ^ 2) by (simpl; lra).
    replace ((- a2) ^ 2) with (a2 ^ 2) by (simpl; lra).
    replace ((- a3) ^ 2) with (a3 ^ 2) by (simpl; lra).
    reflexivity.
Qed.

End reward_bounds.

(** ** More on the environment *)

Section wall_contact.
Import tp_env samples.
Local Open Scope R_scope.

(** The three ways [clamp] can go on a state that starts with [x]. *)
Lemma clamp_cases (k : nat) (next_state : list R) (x : R) :
  next_state !! 0%nat = Some x →
  clamp k next_state =
    if Rlt_dec (x - cart_width / 2) xmin then
      setitem (<[0%nat := xmin + cart_width / 2]> next_state) k 0
    else if Rgt_dec (x + cart_width / 2) xmax then
      setitem (<[0%nat := xmax - cart_width / 2]> next_state) k 0
    else Ok next_state.
Proof.
  intros Hx.
  assert (Hset : ∀ v, setitem next_state 0 v = Ok (<[0%nat := v]> next_state)).
  { intros v. unfold setitem. rewrite decide_True; [done|].
    destruct next_state; simpl in *; [done|lia]. }
  unfold clamp, getitem. rewrite Hx. cbn [mbind result_bind].
  destruct (Rlt_dec _ _); [by rewrite Hset|].
  destruct (Rgt_dec _ _); [by rewrite Hset|done].
Qed.

(** What a successful [clamp] returns: the state itself, its cart within the
    limits, or the state with the cart put on a limit and then component [k]
    zeroed. *)
Lemma clamp_ok_inv (k : nat) (next_state clamped : list R) :
  clamp k next_state = Ok clamped →
  (∃ x, next_state !! 0%nat = Some x ∧ -1.8 <= x <= 1.8 ∧ clamped = next_state)
  ∨ (∃ limit, (limit = -1.8 ∨ limit = 1.8) ∧ (k < length next_state)%nat
              ∧ clamped = <[k := 0]> (<[0%nat := limit]> next_state)).
Proof.
  intros Hclamp.
  destruct travel_limits as [Hmax Hmin].
  destruct (next_state !! 0%nat) as [x|] eqn:Hx;
    [|unfold clamp, getitem in Hclamp; by rewrite Hx in Hclamp].
  rewrite (clamp_cases _ _ _ Hx) in Hclamp.
  assert (Hset : ∀ limit, setitem (<[0%nat := limit]> next_state) k 0 = Ok clamped →
                 (k < length next_state)%nat
                 ∧ clamped = <[k := 0]> (<[0%nat := limit]> next_state)).
  { intros limit. unfold setitem. rewrite length_insert.
    destruct (decide (k < length next_state)%nat); [|done]. by intros [= <-]. }
  destruct (Rlt_dec (x - cart_width / 2) xmin) as [Hlt|Hge].
  { right. exists (xmin + cart_width / 2). split; [left; lra|]. by apply Hset. }
  destruct (Rgt_dec (x + cart_width / 2) xmax) as [Hgt|Hle].
  { right. exists (xmax - cart_width / 2). split; [right; lra|]. by apply Hset. }
  injection Hclamp as <-. left. exists x. split; [done|]. split; [lra|done].
Qed.

Lemma clamp_ok_on_track (k : nat) (next_state clamped : list R) :
  clamp k next_state = Ok clamped →
  ∃ x : R, clamped !! 0%nat = Some x ∧ -1.8 <= x <= 1.8.
Proof.
  intros Hclamp.
  apply clamp_ok_inv in Hclamp as [(x & Hx & Hrange & ->)|(limit & Hlimit & Hk & ->)].
  { by exists x. }
  assert (H0 : (0 < length next_state)%nat) by lia.
  destruct (decide (k = 0)%nat) as [->|Hk0].
  - exists 0. split; [|lra]. apply list_lookup_insert_eq. by rewrite length_insert.
  - exists limit. split; [|destruct Hlimit; lra].
    rewrite list_lookup_insert_ne by done. by apply list_lookup_insert_eq.
Qed.

(** X8.  Whatever state [clamp] is given, the state it returns has the same
    length and a cart position within the travel limits −1.8 and 1.8, and
    [clamp] leaves that state as it is when applied again. *)
Theorem clamp_keeps_cart_on_track (k : nat) (next_state clamped : list R) :
  clamp k next_state = Ok clamped →
  length clamped = length next_state
  ∧ (∃ x : R, clamped !! 0%nat = Some x ∧ -1.8 <= x <= 1.8)
  ∧ clamp k clamped = Ok clamped.
Proof.
  intros Hclamp.
  destruct travel_limits as [Hmax Hmin].
  destruct (clamp_ok_on_track _ _ _ Hclamp) as (x & Hx & Hrange).
  split.
  { apply clamp_ok_inv in Hclamp as [(? & _ & _ & ->)|(? & _ & _ & ->)]; [done|].
    by rewrite !length_insert. }
  split; [by exists x|].
  apply (clamp_inside _ _ x); [done|lra].
Qed.

Lemma clamp_keeps_beyond_wall_state_on_track :
  ∃ clamped x : _,
    clamp 4 beyond_wall_state = Ok clamped
    ∧ length clamped = 8%nat
    ∧ clamped !! 0%nat = Some x ∧ -1.8 <= x <= 1.8.
Proof.
  assert (Hclamp : clamp 4 beyond_wall_state
                   = Ok (<[4%nat := 0]> (<[0%nat := xmax - cart_width / 2]> beyond_wall_state))).
  { apply (clamp_right _ _ 1.84); [done|simpl; lia|].
    unfold xmax, cart_width, window_width. lra. }
  destruct (clamp_keeps_cart_on_track 4 beyond_wall_state _ Hclamp)
    as (Hlen & (x & Hx & Hrange) & _).
  eexists _, x. split; [exact Hclamp|]. split; [exact Hlen|]. split; [exact Hx|exact Hrange].
Defined.

(** X9.  [clamp] raises nothing but IndexError, and raises it exactly on an
    empty state and on a state whose cart is beyond a travel limit while the
    velocity index is past its end.  With the index [len // 2] that [step]
    uses it returns on every non-empty state. *)
Theorem clamp_raises_only_on_missing_index (k : nat) (next_state : list R) :
  (∀ e, clamp k next_state = Raise e → e = IndexError)
  ∧ (clamp k next_state = Raise IndexError
     ↔ next_state = []
       ∨ ∃ x : R, next_state !! 0%nat = Some x ∧ (x < -1.8 ∨ 1.8 < x)
                  ∧ (length next_state ≤ k)%nat)
  ∧ (next_state ≠ [] →
     ∃ clamped, clamp (length next_state `div` 2) next_state = Ok clamped).
Proof.
  destruct travel_limits as [Hmax Hmin].
  assert (Hset : ∀ (s : list R) i v e, setitem s i v = Raise e →
                 e = IndexError ∧ (length s ≤ i)%nat).
  { intros s i v e. unfold setitem. destruct (decide _); [done|].
    intros [= <-]. split; [done|lia]. }
  assert (Hsetok : ∀ (s : list R) i v, (i < length s)%nat → ∃ c, setitem s i v = Ok c).
  { intros s i v Hi. unfold setitem. rewrite decide_True by done. by eexists. }
  destruct (next_state !! 0%nat) as [x|] eqn:Hx.
  - assert (Hne : next_state ≠ []) by (by destruct next_state).
    assert (Hdiv : (length next_state `div` 2 < length next_state)%nat).
    { apply Nat.div_lt; [|lia]. destruct next_state; simpl in *; [done|lia]. }
    rewrite !(clamp_cases _ _ _ Hx).
    destruct (Rlt_dec (x - cart_width / 2) xmin) as [Hlt|Hge];
      [|destruct (Rgt_dec (x + cart_width / 2) xmax) as [Hgt|Hle]].
    + split; [intros e He; by apply Hset in He as [-> _]|]. split.
      * split.
        -- intros He. apply Hset in He as [_ Hk]. rewrite length_insert in Hk.
           right. exists x. split; [done|]. split; [left; lra|done].
        -- intros [->|(y & Hy & _ & Hk)]; [done|]. unfold setitem.
           by rewrite decide_False by (rewrite length_insert; lia).
      * intros _. apply Hsetok. by rewrite length_insert.
    + split; [intros e He; by apply Hset in He as [-> _]|]. split.
      * split.
        -- intros He. apply Hset in He as [_ Hk]. rewrite length_insert in Hk.
           right. exists x. split; [done|]. split; [right; lra|done].
        -- intros [->|(y & Hy & _ & Hk)]; [done|]. unfold setitem.
           by rewrite decide_False by (rewrite length_insert; lia).
      * intros _. apply Hsetok. by rewrite length_insert.
    + split; [done|]. split; [|by eexists].
      split; [done|]. intros [->|(y & Hy & Hout & _)]; [done|].
      simplify_eq. lra.
  - assert (Hnil : next_state = []) by (by destruct next_state).
    subst next_state. unfold clamp, getitem. simpl.
    split; [by intros e [= <-]|]. split; [|done].
    split; [by left|done].
Qed.
End wall_contact.

Section frames.
Import tp_env samples.
Local Open Scope R_scope.
Variable solve_MF : list R → result (list R).

Lemma step_unfold self states steps frame :
  call (step solve_MF steps frame) (self, states) =
    if (Z.of_nat frame <? steps - 1)%Z then
      match next_row solve_MF self states frame ≫= setrow states (frame + 1) with
      | Ok states' => (Ok tt, (set_frame_and_force frame (smoothed self) self, states'))
      | Raise e => (Raise e, (set_frame_and_force frame (smoothed self) self, states))
      end
    else (Ok tt, (set_frame_and_force frame (applied_force self) self, states)).
Proof.
  unfold step, next_row, smoothed. rewrite call_bind. cbn [call get_self].
  destruct (Z.of_nat frame <? steps - 1)%Z; [|reflexivity].
  rewrite call_bind. cbn [call set_self].
  rewrite call_bind, call_lift.
  destruct (getitem states frame) as [current|e]; [|reflexivity]. cbn [mbind result_bind].
  rewrite call_bind, call_lift.
  destruct (rhs _ _ _ _ _ _) as [dx|e]; [|reflexivity]. cbn [mbind result_bind].
  rewrite call_bind, call_lift.
  destruct (add _ _) as [next|e]; [|reflexivity]. cbn [mbind result_bind].
  rewrite call_bind, call_lift.
  destruct (clamp _ _) as [clamped|e]; [|reflexivity]. cbn [mbind result_bind].
  rewrite call_bind, call_lift.
  destruct (setrow _ _ _) as [states'|e]; reflexivity.
Qed.

Lemma setrow_ok (states states' : list (list R)) (i : nat) (row : list R) :
  setrow states i row = Ok states' →
  states' = <[i := row]> states ∧ (i < length states)%nat ∧ length row = shape1 states.
Proof.
  unfold setrow. destruct (decide (i < length states)%nat); [|done].
  destruct (decide (length row = shape1 states)); [|done].
  by intros [= <-].
Qed.

(** X10.  However a call of [step] ends, the array of states has the same
    number of rows as before and no row other than row [frame + 1] has
    changed; on a frame that does not integrate ([frame ≥ steps − 1]) the
    array and the applied force are as they were.  The frame number is
    recorded in every case, and the target force, the time step and the
    parameters are never written.  (The drawing code that ends the closure
    reads the array and writes none of these.) *)
Theorem step_touches_one_row self states (steps : Z) (frame : nat) :
  let self' := (after (step solve_MF steps frame) (self, states)).1 in
  let states' := (after (step solve_MF steps frame) (self, states)).2 in
  length states' = length states
  ∧ (∀ i, i ≠ (frame + 1)%nat → states' !! i = states !! i)
  ∧ (¬ (Z.of_nat frame < steps - 1)%Z →
     states' = states ∧ applied_force self' = applied_force self)
  ∧ current_frame self' = frame
  ∧ target_force self' = target_force self
  ∧ dt self' = dt self
  ∧ parameter_vals self' = parameter_vals self.
Proof.
  unfold after. rewrite step_unfold.
  destruct (Z.of_nat frame <? steps - 1)%Z eqn:Hframe.
  - apply Z.ltb_lt in Hframe.
    destruct (next_row solve_MF self states frame ≫= setrow states (frame + 1))
      as [states'|e] eqn:Hrow; cbn [fst snd].
    + destruct (next_row solve_MF self states frame) as [row|] eqn:Hnext; [|done].
      apply setrow_ok in Hrow as (-> & Hi & _).
      split; [by rewrite length_insert|].
      split; [intros i Hi'; by rewrite list_lookup_insert_ne|].
      split; [done|]. done.
    + repeat split; try done.
  - apply Z.ltb_ge in Hframe. cbn [fst snd].
    repeat split; try done.
Qed.

(** X11.  In [step], when the integrated cart position [x + v·dt] lies
    within the travel limits, the stored next state is the explicit Euler
    state [current + dx·dt], cart velocity included. *)
Theorem step_integrates_within_limits
    (self : TriplePendulumEnv) (states : list (list R)) (steps : Z) (frame : nat)
    (current dx : list R) (x v : R) :
  (Z.of_nat frame < steps - 1)%Z →
  (frame + 1 < length states)%nat →
  states !! frame = Some current →
  shape1 states = length current →
  rhs solve_MF self current (INR frame * dt self) (parameter_vals self)
      (Some (λ _, applied_force self
                  + force_smoothing self * (target_force self - applied_force self)))
  = Ok dx →
  length dx = length current →
  current !! 0%nat = Some x →
  dx !! 0%nat = Some v →
  xmin + cart_width / 2 <= x + v * dt self <= xmax - cart_width / 2 →
  returned (step solve_MF steps frame) (self, states) = Ok tt
  ∧ (after (step solve_MF steps frame) (self, states)).2
    = <[(frame + 1)%nat := zip_with Rplus current (times dx (dt self))]> states.
Proof.
  intros Hframe Hrow Hcur Hshape Hrhs Hdx Hx Hv Hrange.
  assert (Hint0 : zip_with Rplus current (times dx (dt self)) !! 0%nat
                  = Some (x + v * dt self)).
  { unfold times. destruct current, dx; simpl in *; congruence. }
  unfold returned, after.
  rewrite (step_call solve_MF self states steps frame current dx
             (zip_with Rplus current (times dx (dt self)))); try done.
  - by apply (clamp_inside _ _ (x + v * dt self)).
  - unfold times. rewrite length_zip_with, length_fmap. lia.
Qed.


Lemma for_each_cons {S A} (item : A) (items : list A) (body : A → method S unit) (s : S) :
  call (for_each (item :: items) body) s =
    match call (body item) s with
    | (Ok _, s') => call (for_each items body) s'
    | (Raise e, s') => (Raise e, s')
    end.
Proof. reflexivity. Qed.



End frames.

Section frames_examples.
Import tp_env samples.
Local Open Scope R_scope.

Lemma step_integrates_centre_state :
  returned (step near_wall_solver 2 0) (default, centre_states) = Ok tt
  ∧ (after (step near_wall_solver 2 0) (default, centre_states)).2
    = <[1%nat := zip_with Rplus centre_state (times [5; 0; 0; 0; 0; 0; 0; 0] (dt default))]>
        centre_states.
Proof.
  apply (step_integrates_within_limits near_wall_solver default centre_states 2 0
           centre_state [5; 0; 0; 0; 0; 0; 0; 0] 0 5);
    try reflexivity; try (simpl; lia).
  unfold xmin, xmax, cart_width, window_width. simpl. lra.
Defined.


End frames_examples.

Section keys.
Import tp_env samples.
Local Open Scope R_scope.

Lemma shape1_insert (states : list (list R)) (i : nat) (row : list R) :
  length row = shape1 states → shape1 (<[i := row]> states) = shape1 states.
Proof. destruct states as [|first states], i; simpl; congruence. Qed.

Lemma copy_rows_call (frame : nat) (row : list R) (count start : nat)
    (self : TriplePendulumEnv) (states : list (list R)) :
  states !! frame = Some row → (frame < start)%nat →
  (start + count ≤ length states)%nat → length row = shape1 states →
  ∃ states' : list (list R),
    call (for_each (seq start count)
            (λ i, '(_, states) ← get_self;
                  row ← lift (getitem states frame);
                  states ← lift (setrow states i row);
                  set_self (λ '(self, _), (self, states))))
         (self, states)
    = (Ok tt, (self, states'))
    ∧ length states' = length states
    ∧ ∀ i, states' !! i
           = if decide (start ≤ i < start + count)%nat then Some row else states !! i.
Proof.
  revert start states. induction count as [|count IH]; intros start states Hrow Hlt Hlen Hshape.
  { exists states. split; [done|]. split; [done|].
    intros i. by rewrite decide_False by lia. }
  cbn [seq]. rewrite for_each_cons.
  rewrite call_bind. cbn [call get_self].
  rewrite call_bind, call_lift. unfold getitem at 1. rewrite Hrow.
  rewrite call_bind, call_lift. unfold setrow at 1.
  rewrite !decide_True by (done || lia). cbn [call set_self].
  destruct (IH (S start) (<[start := row]> states)) as (states' & Hcall & Hlen' & Hlook).
  - by rewrite list_lookup_insert_ne by lia.
  - lia.
  - rewrite length_insert. lia.
  - by rewrite shape1_insert.
  - exists states'. split; [exact Hcall|].
    split; [by rewrite Hlen', length_insert|].
    intros i. rewrite Hlook.
    destruct (decide (i = start)) as [->|Hne].
    + rewrite decide_False, decide_True by lia.
      apply list_lookup_insert_eq. lia.
    + rewrite list_lookup_insert_ne by done.
      destruct (decide (S start ≤ i < S start + count)%nat);
        [by rewrite decide_True by lia|by rewrite decide_False by lia].
Qed.

(** X13.  Pressing the space bar, with the current frame inside an array of
    states of [2n + 2] columns, resets the environment, zeroes the target
    force and writes the reset state into the row of the current frame and
    into every row after it; the rows before it and the number of rows are
    kept, and nothing is raised. *)
Theorem space_key_rewinds_to_reset_state
    (self : TriplePendulumEnv) (states : list (list R)) :
  (current_frame self < length states)%nat →
  shape1 states = (2 * n self + 2)%nat →
  ∃ (state : list R) (self' : TriplePendulumEnv) (states' : list (list R)),
    returned reset self = Ok state
    ∧ call (handle_key_press " ") (self, states) = (Ok tt, (self', states'))
    ∧ target_force self' = 0
    ∧ applied_force self' = applied_force self
    ∧ current_state self' = Some state
    ∧ current_time self' = 0
    ∧ length states' = length states
    ∧ (∀ i, (i < current_frame self)%nat → states' !! i = states !! i)
    ∧ (∀ i, (current_frame self ≤ i < length states)%nat → states' !! i = Some state).
Proof.
  intros Hframe Hshape.
  set (state := 0 :: replicate (n self) (- PI / 2) ++ replicate (n self + 1) 1e-3).
  assert (Hlen : length state = shape1 states).
  { unfold state. rewrite length_cons, length_app, !length_replicate, Hshape. lia. }
  destruct (copy_rows_call (current_frame self) state
              (length states - (current_frame self + 1)) (current_frame self + 1)
              (set_state_and_time state 0 (set_target_force 0.0 self))
              (<[current_frame self := state]> states))
    as (states' & Hcall & Hlen' & Hlook).
  { by apply list_lookup_insert_eq. }
  { lia. }
  { rewrite length_insert. lia. }
  { by rewrite shape1_insert. }
  exists state, (set_state_and_time state 0 (set_target_force 0.0 self)), states'.
  split; [unfold returned; by rewrite reset_call|].
  split.
  { unfold handle_key_press. rewrite call_bind. cbn [call get_self].
    rewrite decide_False, decide_False, decide_True by done.
    rewrite call_bind. cbn [call set_self].
    rewrite call_bind. unfold on_first at 1. cbn [call]. rewrite reset_call.
    cbn [n set_target_force]. fold state.
    rewrite call_bind. cbn [call get_self].
    rewrite call_bind, call_lift. unfold setrow at 1.
    cbn [current_frame set_state_and_time set_target_force].
    rewrite !decide_True by done.
    rewrite call_bind. cbn [call set_self].
    unfold copy_row_down. rewrite call_bind. cbn [call get_self].
    rewrite length_insert. exact Hcall. }
  cbn [target_force applied_force current_state current_time
       set_state_and_time set_target_force].
  split; [lra|]. split; [done|]. split; [done|]. split; [done|].
  split; [by rewrite Hlen', length_insert|].
  split.
  - intros i Hi. rewrite Hlook, decide_False by lia.
    by rewrite list_lookup_insert_ne by lia.
  - intros i Hi. rewrite Hlook.
    destruct (decide (i = current_frame self)) as [->|Hne].
    + rewrite decide_False by lia. by apply list_lookup_insert_eq.
    + by rewrite decide_True by lia.
Qed.

Lemma space_key_rewinds_centre_states :
  ∃ (state : list R) (self' : TriplePendulumEnv) (states' : list (list R)),
    returned reset default = Ok state
    ∧ call (handle_key_press " ") (default, centre_states) = (Ok tt, (self', states'))
    ∧ states' !! 0%nat = Some state ∧ states' !! 1%nat = Some state.
Proof.
  destruct (space_key_rewinds_to_reset_state default centre_states)
    as (state & self' & states' & Hreset & Hcall & _ & _ & _ & _ & _ & _ & Hrows).
  { simpl. lia. }
  { reflexivity. }
  exists state, self', states'. split; [exact Hreset|]. split; [exact Hcall|].
  split; apply Hrows; simpl; lia.
Defined.
End keys.

Section rollout.
Import tp_env samples.
Local Open Scope R_scope.
Variable solve_MF : list R → result (list R).

Lemma get_state_is_lazy_reset_aux (env : TriplePendulumEnv) :
  is_Some (current_state env) →
  ∃ state, current_state env = Some state ∧ call get_state env = (Ok state, env).
Proof.
  intros [state Hstate]. exists state. split; [done|].
  unfold get_state. rewrite call_bind. cbn [call get_self]. by rewrite Hstate.
Qed.

(** X14.  [get_state] never raises.  On an environment without a current
    state it is [reset]; on one with a current state it returns that state
    and changes nothing.  Either way the environment afterwards holds the
    returned state, and a second call returns it again without a change. *)
Theorem get_state_is_lazy_reset (self : TriplePendulumEnv) :
  (current_state self = None → call get_state self = call reset self)
  ∧ (∀ state, current_state self = Some state → call get_state self = (Ok state, self))
  ∧ ∃ state : list R,
      returned get_state self = Ok state
      ∧ current_state (after get_state self) = Some state
      ∧ call get_state (after get_state self) = (Ok state, after get_state self).
Proof.
  assert (Hunfold : ∀ env, call get_state env
                           = match current_state env with
                             | Some state => (Ok state, env)
                             | None => call reset env
                             end).
  { intros env. unfold get_state. rewrite call_bind. cbn [call get_self].
    by destruct (current_state env). }
  split; [intros Hnone; by rewrite Hunfold, Hnone|].
  split; [intros state Hsome; by rewrite Hunfold, Hsome|].
  unfold returned, after. rewrite (Hunfold self).
  destruct (current_state self) as [state|] eqn:Hstate.
  - exists state. cbn [fst snd]. split; [done|]. split; [done|].
    by rewrite Hunfold, Hstate.
  - rewrite reset_call. eexists. cbn [fst snd]. split; [reflexivity|].
    split; [reflexivity|]. by rewrite Hunfold.
Qed.

Lemma main_loop_body_unfold env state states :
  call (main_loop_body solve_MF) (env, state, states) =
    match rhs solve_MF env state (current_time env) (parameter_vals env) (Some (λ _, 0.0)) with
    | Ok dx =>
        let env' := set_current_time (current_time env + dt env) env in
        match add state (times dx (dt env)) with
        | Ok next => (Ok tt, (env', next, states ++ [next]))
        | Raise e => (Raise e, (env', state, states))
        end
    | Raise e => (Raise e, (env, state, states))
    end.
Proof.
  unfold main_loop_body. rewrite call_bind. cbn [call get_self].
  rewrite call_bind, call_lift.
  destruct (rhs _ _ _ _ _ _) as [dx|e]; [|reflexivity].
  rewrite call_bind. cbn [call set_self].
  rewrite call_bind, call_lift. cbn [dt set_current_time].
  destruct (add _ _) as [next|e]; reflexivity.
Qed.

(** X15.  When the loop of the main block completes [k] iterations, it has
    appended exactly [k] rows to the list of states and kept the earlier
    ones; the clock is the old one with [dt] added [k] times, one addition
    after the other; the local state is the last row;
    and each appended row is the explicit Euler step, under zero force, of the
    row before it (of the initial state, for the first).  The current state
    of the environment is not updated. *)
Theorem main_loop_appends_euler_steps (k : nat) env state states env' state' states' :
  call (main_loop solve_MF k) (env, state, states) = (Ok tt, (env', state', states')) →
  length states' = (length states + k)%nat
  ∧ take (length states) states' = states
  ∧ current_time env' = Nat.iter k (λ t, t + dt env) (current_time env)
  ∧ current_state env' = current_state env
  ∧ last (state :: drop (length states) states') = Some state'
  ∧ ∀ i row next,
      (state :: drop (length states) states') !! i = Some row →
      (state :: drop (length states) states') !! (i + 1)%nat = Some next →
      euler_step solve_MF env row next.
Proof.
  revert env state states. induction k as [|k IH]; intros env state states Hcall.
  { simpl in Hcall. injection Hcall as <- <- <-.
    rewrite drop_all, take_ge by done.
    split; [lia|]. split; [done|]. split; [done|]. split; [done|].
    split; [done|].
    intros [|i] row next Hrow Hnext; [done|simpl in Hrow; by rewrite lookup_nil in Hrow]. }
  unfold main_loop in Hcall. cbn [replicate] in Hcall.
  rewrite for_each_cons, main_loop_body_unfold in Hcall.
  destruct (rhs _ _ _ _ _ _) as [dx|] eqn:Hrhs; [|done]. cbn zeta in Hcall.
  destruct (add _ _) as [next|] eqn:Hadd; [|done].
  apply IH in Hcall as (Hlen & Htake & Htime & Hstate & Hlast & Hchain).
  rewrite length_app in Hlen, Htake, Hlast, Hchain. simpl in Hlen, Htake, Hlast, Hchain.
  cbn [current_time current_state dt set_current_time] in Htime, Hstate.
  assert (Hprefix : take (length states) states' = states).
  { replace (take (length states) states')
      with (take (length states) (take (length states + 1) states'))
      by (rewrite take_take; f_equal; lia).
    by rewrite Htake, take_app_length. }
  assert (Hnew : states' !! length states = Some next).
  { rewrite <- (lookup_take_lt _ (length states + 1)) by lia.
    rewrite Htake. by apply list_lookup_middle. }
  assert (Hdrop : drop (length states) states'
                  = next :: drop (length states + 1) states').
  { rewrite (drop_S _ _ _ Hnew). f_equal. f_equal. lia. }
  split; [lia|]. split; [done|].
  split; [by rewrite Htime, Nat.iter_succ_r|]. split; [done|].
  rewrite Hdrop.
  split; [exact Hlast|].
  intros [|i] row nxt Hrow Hnext.
  - simpl in Hrow, Hnext. simplify_eq. by exists (current_time env), dx.
  - destruct (Hchain i row nxt Hrow Hnext) as (t & dx' & Hrhs' & Hadd').
    by exists t, dx'.
Qed.
End rollout.

Section rollout_examples.
Import tp_env samples.
Local Open Scope R_scope.

Lemma main_loop_two_iterations :
  ∃ env' state' states',
    call (main_loop near_wall_solver 2) (default, centre_state, [centre_state])
    = (Ok tt, (env', state', states'))
    ∧ length states' = 3%nat
    ∧ current_time env' = current_time default + dt default + dt default
    ∧ last (centre_state :: drop 1 states') = Some state'.
Proof.
  set (out := call (main_loop near_wall_solver 2) (default, centre_state, [centre_state])).
  assert (Hcall : out = (Ok tt, (out.2.1.1, out.2.1.2, out.2.2))) by reflexivity.
  destruct (main_loop_appends_euler_steps near_wall_solver 2 _ _ _ _ _ _ Hcall)
    as (Hlen & _ & Htime & _ & Hlast & _).
  exists out.2.1.1, out.2.1.2, out.2.2.
  split; [exact Hcall|]. split; [exact Hlen|]. split; [exact Htime|exact Hlast].
Defined.
End rollout_examples.

(** ** The drawing of a frame *)

Section drawing.
Import tp_env samples.
Local Open Scope R_scope.





End drawing.

(** ** The argument vector of the compiled dynamics *)

Section arguments.
Import tp_env samples.
Local Open Scope R_scope.
Variable solve_MF : list R → result (list R).

Lemma Forall2_seq_lookup {A} (P : nat → A → Prop) (values : list A) :
  (∀ i v, values !! i = Some v → P i v) →
  Forall2 P (seq 0 (length values)) values.
Proof.
  induction values as [|v values IH] using rev_ind; intros HP; [constructor|].
  rewrite length_app. simpl. rewrite Nat.add_1_r, seq_S. simpl.
  apply Forall2_app.
  - apply IH. intros i w Hi. apply HP. by apply lookup_app_l_Some.
  - repeat constructor. apply HP. by apply list_lookup_middle.
Qed.

Lemma parameters_bound (self : TriplePendulumEnv) (num_nodes : nat)
    (coordinates speeds : list R) (force : R) :
  Forall2 (bound_to self coordinates speeds force)
          (parameters num_nodes)
          ([9.81; bob_mass self]
           ++ mjoin (replicate num_nodes [arm_length self; bob_mass self])).
Proof.
  unfold parameters. induction num_nodes as [|k IH].
  { simpl. by repeat constructor. }
  rewrite seq_S, foldl_app, replicate_S_end, join_app. simpl foldl. simpl mjoin.
  rewrite ?app_nil_r, (assoc_L (++)).
  apply Forall2_app; [exact IH|]. by repeat constructor.
Qed.

(** X19.  On a state of [2n + 2] components (coordinates, then speeds)
    [rhs] calls the solver with as many values as the compiled functions
    have formal arguments, each in the place of its symbol: coordinate [i]
    for [q_i], speed [i] for [u_i], the controller's output (0 without a
    controller) for [f], 9.81 for [g], the bob mass for every mass, the cart's
    included, and the arm length for every length.  The time argument is not
    passed on. *)
Theorem rhs_arguments_follow_lambdify_order
    (num_nodes : nat) (arm_length bob_mass friction : R)
    (coordinates speeds : list R) (t : R) (controller : option (list R → R)) :
  length coordinates = (num_nodes + 1)%nat →
  length speeds = (num_nodes + 1)%nat →
  let self := __init__ num_nodes arm_length bob_mass friction in
  let force := match controller with
               | Some c => c (coordinates ++ speeds)
               | None => 0
               end in
  ∃ arguments : list R,
    rhs solve_MF self (coordinates ++ speeds) t (parameter_vals self) controller
    = solve_MF arguments
    ∧ length arguments = (4 * num_nodes + 5)%nat
    ∧ Forall2 (bound_to self coordinates speeds force)
              (lambdify_arguments num_nodes) arguments.
Proof.
  intros Hq Hu self force.
  exists (coordinates ++ speeds ++ [force] ++ parameter_vals self).
  split.
  { unfold rhs, hstack. simpl. rewrite app_nil_r, <- (assoc_L (++)).
    do 4 f_equal. unfold force. destruct controller; [done|lra]. }
  split.
  { rewrite !length_app, Hq, Hu. simpl.
    rewrite length_join. rewrite fmap_replicate. simpl.
    rewrite sum_list_replicate. lia. }
  unfold lambdify_arguments, dynamic. rewrite <- !(assoc_L (++)).
  apply Forall2_app; [|apply Forall2_app; [|apply Forall2_app]].
  - unfold q. apply Forall2_fmap_l. rewrite <- Hq.
    by apply Forall2_seq_lookup.
  - unfold u. apply Forall2_fmap_l. rewrite <- Hu.
    by apply Forall2_seq_lookup.
  - by repeat constructor.
  - apply (parameters_bound self).
Qed.
End arguments.

Section arguments_examples.
Import tp_env samples.
Local Open Scope R_scope.

Lemma rhs_arguments_centre_state :
  ∃ arguments : list R,
    rhs near_wall_solver default ([0; 0; 0; 0] ++ [5; 0; 0; 0]) 0 (parameter_vals default) None
    = near_wall_solver arguments
    ∧ length arguments = 17%nat.
Proof.
  destruct (rhs_arguments_follow_lambdify_order near_wall_solver 3 (1 / 3) (0.01 / 3) 0.1
              [0; 0; 0; 0] [5; 0; 0; 0] 0 None)
    as (arguments & Hcall & Hlen & _); [reflexivity..|].
  exists arguments. split; [exact Hcall|exact Hlen].
Defined.
End arguments_examples.

(** ** The trainer *)

Section trainer_properties.
Import train samples.
Local Open Scope R_scope.

Lemma push_buffer {A} (self : ReplayBuffer A) (transition : A) :
  buffer (push self transition)
  = drop (length (buffer self) + 1 - maxlen self) (buffer self ++ [transition]).
Proof. unfold push. simpl. by rewrite length_app. Qed.

(** X20.  A replay buffer of capacity [c] into which transitions have been
    pushed holds the last [c] of them, in the order pushed: it never holds more
    than [c], its length is the smaller of [c] and the number pushed, and the
    oldest transitions are the ones discarded. *)
Theorem replay_buffer_keeps_last_transitions {A} (capacity : nat) (pushed : list A) :
  let memory := foldl push (ReplayBuffer_init capacity) pushed in
  buffer memory = drop (length pushed - capacity) pushed
  ∧ len memory = (length pushed `min` capacity)%nat
  ∧ (len memory ≤ capacity)%nat
  ∧ maxlen memory = capacity.
Proof.
  cbn zeta.
  assert (Hmain : buffer (foldl push (ReplayBuffer_init capacity) pushed)
                  = drop (length pushed - capacity) pushed
                  ∧ maxlen (foldl push (ReplayBuffer_init capacity) pushed) = capacity).
  { induction pushed as [|transition pushed [IHb IHm]] using rev_ind; [done|].
    rewrite foldl_app. cbn [foldl]. rewrite push_buffer, IHb, IHm.
    split; [|done].
    rewrite length_drop.
    destruct (decide (length pushed ≤ capacity)%nat) as [Hle|Hgt].
    - replace (length pushed - capacity)%nat with 0%nat by lia.
      rewrite drop_0, length_app. simpl. f_equal. lia.
    - replace (length pushed - (length pushed - capacity) + 1 - capacity)%nat
        with 1%nat by lia.
      rewrite <- (drop_app_le pushed [transition]) by lia.
      rewrite drop_drop, length_app. simpl. f_equal. lia. }
  destruct Hmain as [Hb Hm]. unfold len. rewrite Hb, length_drop.
  repeat split; try done; lia.
Qed.

(** X22.  Every call of [collect_trajectory] raises AttributeError at
    [self.reward_manager.reset()], a method that [RewardManager] does not
    have, before its loop is entered: no step is taken and no transition is
    produced.  The environment has been reset by then (reset state stored,
    clock at 0); the exploration rate, the step counter, the running reward
    statistics and the reward manager are as they were. *)
Theorem collect_trajectory_raises_AttributeError {A}
    (invoke : tp_env.attribute → result unit)
    (rest : list R → method TriplePendulumTrainer A) (self : TriplePendulumTrainer) :
  reward_manager_getattr "reset" = Raise AttributeError
  ∧ returned (collect_trajectory invoke rest) self = Raise AttributeError
  ∧ env (after (collect_trajectory invoke rest) self) = after tp_env.reset (env self)
  ∧ tp_env.current_time (env (after (collect_trajectory invoke rest) self)) = 0
  ∧ epsilon (after (collect_trajectory invoke rest) self) = epsilon self
  ∧ total_steps (after (collect_trajectory invoke rest) self) = total_steps self
  ∧ reward_running_mean (after (collect_trajectory invoke rest) self)
    = reward_running_mean self
  ∧ reward_running_std (after (collect_trajectory invoke rest) self)
    = reward_running_std self
  ∧ reward_manager (after (collect_trajectory invoke rest) self) = reward_manager self.
Proof.
  split; [reflexivity|].
  assert (Hcall : call (collect_trajectory invoke rest) self
                  = (Raise AttributeError, set_env (after tp_env.reset (env self)) self)).
  { unfold collect_trajectory. rewrite call_bind.
    unfold on_env at 1. cbn [call]. rewrite reset_call.
    rewrite call_bind. unfold on_env at 1. cbn [call env set_env].
    destruct (get_state_is_lazy_reset_aux
                (tp_env.set_state_and_time
                   (0 :: replicate (tp_env.n (env self)) (- PI / 2)
                      ++ replicate (tp_env.n (env self) + 1) 1e-3) 0 (env self)))
      as (state & _ & ->); [by eexists|].
    cbn [env set_env]. rewrite call_bind, call_lift.
    unfold after. rewrite reset_call. reflexivity. }
  unfold returned, after at 1 3 4 5 6 7 8. rewrite Hcall. cbn [fst snd].
  cbn [env epsilon total_steps reward_running_mean reward_running_std
       reward_manager set_env].
  repeat split; try reflexivity.
  unfold after. by rewrite reset_call.
Qed.

(** X23.  The statement of line 133, which unpacks the result of
    [calculate_reward] into seven names, raises ValueError on every state:
    from the call itself when the state has fewer than twelve components,
    and otherwise from the unpacking of the five returned values, the manager
    having recorded the state by then. *)
Theorem custom_reward_line_raises_ValueError
    (self : reward.RewardManager) (next_state : list R) (terminated : bool)
    (num_steps : Z) :
  returned (custom_reward_line next_state terminated num_steps) self = Raise ValueError
  ∧ ((12 ≤ length next_state)%nat →
     reward.old_state (after (custom_reward_line next_state terminated num_steps) self)
     = Some next_state)
  ∧ ((length next_state < 12)%nat →
     after (custom_reward_line next_state terminated num_steps) self = self).
Proof.
  unfold returned, after, custom_reward_line. rewrite call_bind.
  destruct (decide (length next_state < 12)%nat) as [Hlen|Hlen].
  - rewrite calculate_reward_short by done. cbn [fst snd].
    split; [done|]. split; [lia|done].
  - destruct (twelve_components next_state) as (?&?&?&?&?&?&?&?&?&?&?&?&?&->); [lia|].
    rewrite calculate_reward_call.
    destruct (reward.reward_of _ _ _ _ _ _ _ _ _ _ _ _) as [[[[? ?] ?] ?] ?].
    rewrite call_bind, call_lift. cbn [unpack7 fst snd].
    split; [done|]. split; [done|lia].
Qed.
End trainer_properties.

Section infinities.
Import train samples.

(** X24.  A state that holds infinities of both signs is rejected: whatever
    else it holds and in whatever order, the sum of its components is NaN and
    the check raises ValueError. *)
Theorem check_state_rejects_opposite_infinities (next_state : list float64) :
  S754_infinity false ∈ next_state → S754_infinity true ∈ next_state →
  np_sum next_state = S754_nan ∧ check_state next_state = Raise ValueError.
Proof.
  intros Hpos Hneg.
  assert (Hsum : np_sum next_state = S754_nan).
  { destruct (np_sum_stuck false _ Hpos) as [Hp|Hnan]; [|done].
    destruct (np_sum_stuck true _ Hneg) as [Hn|Hnan]; [|done].
    rewrite Hp in Hn. discriminate. }
  unfold check_state. by rewrite Hsum.
Qed.

Lemma check_state_rejects_mixed_state :
  check_state mixed_state = Raise ValueError.
Proof.
  apply (check_state_rejects_opposite_infinities mixed_state).
  - apply list_elem_of_here.
  - apply list_elem_of_further, list_elem_of_here.
Defined.
End infinities.

(** ** The actor network *)

Section actor.
Import model samples.
Local Open Scope R_scope.

Lemma tanh_bounds (x : R) : -1 < tanh x < 1.
Proof.
  unfold tanh, sinh, cosh.
  pose proof (exp_pos x) as Hp. pose proof (exp_pos (- x)) as Hn.
  assert (Hc : 0 < (exp x + exp (- x)) / 2) by lra.
  split.
  - apply (Rmult_lt_reg_r ((exp x + exp (- x)) / 2)); [done|].
    unfold Rdiv at 2. rewrite Rmult_assoc, Rinv_l by lra. lra.
  - apply (Rmult_lt_reg_r ((exp x + exp (- x)) / 2)); [done|].
    unfold Rdiv at 1. rewrite Rmult_assoc, Rinv_l by lra. lra.
Qed.

Lemma Linear_forward_shaped (layer : Linear) (x : list R) in_features out_features :
  shaped in_features out_features layer → length x = in_features →
  ∃ y, Linear_forward layer x = Some y ∧ length y = out_features.
Proof.
  intros (Hrows & Hcols & Hbias) Hx. unfold Linear_forward.
  rewrite decide_True by (by rewrite Hx).
  eexists. split; [done|]. rewrite length_zip_with. lia.
Qed.

(** X25.  An actor with the shapes its constructor gives it returns, on a
    state of [state_dim] components, [action_dim] values that all lie between
    −1 and 1, bounds included, whatever its weights: the output is as bounded
    as the activation of the last layer. *)
Theorem actor_output_is_bounded (torch_tanh : R → R)
    (state_dim action_dim hidden_dim : nat) (self : TriplePendulumActor) (x : list R) :
  (∀ v, -1 <= torch_tanh v <= 1) →
  constructed state_dim action_dim hidden_dim self →
  length x = state_dim →
  ∃ action : list R,
    forward torch_tanh self x = Some action
    ∧ length action = action_dim
    ∧ Forall (λ a, -1 <= a <= 1) action.
Proof.
  intros Hrange (H1 & H2 & H3) Hx. unfold forward.
  destruct (Linear_forward_shaped _ x _ _ H1 Hx) as (h1 & -> & Hh1).
  cbn [mbind option_bind].
  destruct (Linear_forward_shaped (fc2 self) (relu h1) _ _ H2) as (h2 & -> & Hh2);
    [unfold relu; by rewrite length_fmap|].
  cbn [mbind option_bind].
  destruct (Linear_forward_shaped (fc3 self) (relu h2) _ _ H3) as (out & -> & Hout);
    [unfold relu; by rewrite length_fmap|].
  cbn [mbind option_bind].
  exists (tanh_ torch_tanh out). split; [done|].
  unfold tanh_. split; [by rewrite length_fmap|].
  apply Forall_fmap, Forall_forall. intros a _. apply Hrange.
Qed.

Lemma small_actor_output_is_bounded :
  ∃ action : list R,
    forward tanh small_actor [0.5; 0.25] = Some action
    ∧ length action = 1%nat
    ∧ Forall (λ a, -1 <= a <= 1) action.
Proof.
  apply (actor_output_is_bounded tanh 2 1 1 small_actor [0.5; 0.25]);
    [|repeat split; simpl; repeat constructor|reflexivity].
  intros v. pose proof (tanh_bounds v). lra.
Defined.
End actor.
